(** * Layer-wise relevance propagation: the propagation engine

    A shallow embedding of [captum/attr/_core/layer_wise_relevance_propagation.py]
    (class [LRP]) and [captum/attr/_core/layer/layer_lrp.py] (class
    [LayerLRP]).

    Python objects with identity (the modules of a model) live in a store
    indexed by locations; the engine object [self] and the store are threaded
    through a state-and-exception monad in which a raised exception keeps the
    mutations made so far, as in Python.  The tensor library and the
    differentiation runtime are interfaces ([TensorLib], [Runtime]). *)

From Stdlib Require Import ZArith Lia.
From stdpp Require Import base option list strings gmap.

Set Warnings "-register-all".

(** ** Exceptions and results *)

Inductive exn :=
  | TypeError (msg : string)
  | UnboundLocalError (var : string)
  | AttributeError (attr : string)
  | IndexError
  | RuntimeFailure (msg : string).

Inductive result (A : Type) :=
  | Ok (a : A)
  | Err (e : exn).
Arguments Ok {A} a.
Arguments Err {A} e.

(** ** The monad of methods: state passing, exceptions keep the state *)

Definition M (S A : Type) : Type := S → result A * S.

Definition ret {S A} (a : A) : M S A := λ s, (Ok a, s).
Definition raise {S A} (e : exn) : M S A := λ s, (Err e, s).
Definition bind {S A B} (c : M S A) (k : A → M S B) : M S B :=
  λ s, match c s with
       | (Ok a, s') => k a s'
       | (Err e, s') => (Err e, s')
       end.
Definition get {S} : M S S := λ s, (Ok s, s).
Definition gets {S A} (f : S → A) : M S A := λ s, (Ok (f s), s).
Definition modify {S} (f : S → S) : M S unit := λ s, (Ok tt, f s).
Definition lift_result {S A} (r : result A) : M S A := λ s, (r, s).

Global Instance M_ret {S} : MRet (M S) := λ A, @ret S A.
Global Instance M_bind {S} : MBind (M S) := λ A B k c, bind c k.

(** [for x in xs: body x] *)
Definition for_each {S X} (body : X → M S unit) : list X → M S unit :=
  fix loop xs :=
    match xs with
    | [] => ret tt
    | x :: xs' => body x;; loop xs'
    end.

(** A generator expression consumed by [tuple(...)]: the elements are
    produced in order and the first exception ends the evaluation. *)
Fixpoint map_result {A B} (f : A → result B) (xs : list A) : result (list B) :=
  match xs with
  | [] => Ok []
  | x :: xs' =>
      match f x with
      | Err e => Err e
      | Ok y => match map_result f xs' with
                | Err e => Err e
                | Ok ys => Ok (y :: ys)
                end
      end
  end.

(** ** Layer kinds, rules and the registry *)

(** The class of a module, as [type(layer)] sees it. *)
Inductive layer_kind :=
  | MaxPool2d | Conv2d | AvgPool2d | AdaptiveAvgPool2d | Linear | BatchNorm2d
  | ReLU | Sigmoid | Tanh
  | OtherModule (name : string).

Global Instance layer_kind_eq_dec : EqDecision layer_kind.
Proof. solve_decision. Defined.

(** The rule classes imported from [lrp_rules]. *)
Inductive rule_class := Alpha1_Beta0_Rule | EpsilonRule | GammaRule.

Global Instance rule_class_eq_dec : EqDecision rule_class.
Proof. solve_decision. Defined.

(** A Python dict in insertion order. *)
Fixpoint dict_get {K V} `{EqDecision K} (d : list (K * V)) (k : K) : option V :=
  match d with
  | [] => None
  | (k', v) :: d' => if decide (k = k') then Some v else dict_get d' k
  end.

Definition dict_keys {K V} (d : list (K * V)) : list K := d.*1.

Definition SUPPORTED_LINEAR_LAYERS : list (layer_kind * rule_class) :=
  [ (MaxPool2d, EpsilonRule);
    (Conv2d, Alpha1_Beta0_Rule);
    (AvgPool2d, EpsilonRule);
    (AdaptiveAvgPool2d, EpsilonRule);
    (Linear, Alpha1_Beta0_Rule);
    (BatchNorm2d, EpsilonRule) ].

Definition SUPPORTED_NON_LINEAR_LAYERS : list layer_kind := [ ReLU ].

(** ** Modules, hooks and handles *)

Definition loc := nat.

(** A module object: its identity, its class and what [children()] yields. *)
Inductive module := Module (ident : loc) (kind : layer_kind) (children : list module).

Definition ident (m : module) : loc := let 'Module l _ _ := m in l.
Definition kind (m : module) : layer_kind := let 'Module _ k _ := m in k.
Definition children (m : module) : list module := let 'Module _ _ cs := m in cs.

(** The identities of all module objects of a model. *)
Fixpoint locs (m : module) : list loc :=
  let 'Module l _ cs := m in l :: flat_map locs cs.

(** A rule instance created by the engine: [SUPPORTED_LINEAR_LAYERS[...]()]. *)
Record rule_inst := { ri_id : nat; ri_class : rule_class }.

Inductive rule_method :=
  | forward_hook
  | backward_hook_activation
  | _backward_hook_relevance
  | forward_hook_weights
  | forward_pre_hook_activations.

(** A bound method of a rule instance, as passed to [register_*_hook]. *)
Record callback := { cb_rule : rule_inst; cb_method : rule_method }.

Inductive hook_slot := ForwardHook | BackwardHook | ForwardPreHook.

(** One entry of a module's hook dictionaries, keyed by the handle's id. *)
Record hook_entry := { he_id : nat; he_slot : hook_slot; he_cb : callback }.

(** A removable handle: of a module hook, or of a hook on a tensor. *)
Inductive handle :=
  | ModuleHandle (l : loc) (id : nat)
  | TensorHandle (id : nat).

Global Instance rule_inst_eq_dec : EqDecision rule_inst.
Proof. solve_decision. Defined.
Global Instance rule_method_eq_dec : EqDecision rule_method.
Proof. solve_decision. Defined.
Global Instance callback_eq_dec : EqDecision callback.
Proof. solve_decision. Defined.
Global Instance hook_slot_eq_dec : EqDecision hook_slot.
Proof. solve_decision. Defined.
Global Instance hook_entry_eq_dec : EqDecision hook_entry.
Proof. solve_decision. Defined.

(** ** The tensor library *)

(** The operations of [torch] the engine uses.  [tmul] is the element-wise
    product [a * b], which broadcasts and raises when the shapes do not fit;
    [torch_sum] is [torch.sum] without a dimension; [tindex0] is [t[0]]. *)
Class TensorLib := {
  tensor : Type;
  tmul : tensor → tensor → result tensor;
  torch_sum : tensor → tensor;
  tsub : tensor → tensor → tensor;
  tindex0 : tensor → result tensor;
}.

(** Python values that [attribute] handles and returns. *)
Inductive value `{TensorLib} :=
  | VTensor (t : tensor)
  | VList (vs : list value)
  | VTuple (vs : list value).

(** The [inputs] argument: one tensor or a tuple of tensors. *)
Inductive inputs_arg `{TensorLib} :=
  | SingleTensor (t : tensor)
  | TensorTuple (ts : list tensor).

(** The mutable attributes of a module object: the transient [relevance]
    attribute (absent until a hook sets it) and everything else the
    runtime keeps there (weights, buffers). *)
Record mattrs `{TensorLib} {params : Type} := {
  relevance : option tensor;
  parameters : params;
}.
Arguments mattrs {_} params.

(** ** The differentiation runtime and the helpers outside these sources *)

(** What the engine calls but does not define.  The runtime runs a model
    given by its module objects: it reads the hook dictionaries and may
    change the modules' attributes (a hook stores a relevance, a rule
    changes weights) and its own state (the graph, the flags of the input
    tensors, the tensors a rule saved).
    - [_run_forward model inputs target additional_forward_args];
    - [compute_gradients model inputs target additional_forward_args];
    - [apply_gradient_requirements], [undo_gradient_requirements];
    - [remove_tensor_hook]: [remove()] on the handle of a tensor hook;
    - [isinstance_ManipulateModules]: whether a rule class derives from
      [PropagationRule_ManipulateModules];
    - [_format_input], [_format_attributions] of [_utils.common]. *)
Class Runtime `{TensorLib} := {
  params : Type;
  rt_state : Type;
  target : Type;
  forward_args : Type;
  gradient_mask : Type;
  _run_forward :
    gmap loc (list hook_entry) → module → list tensor →
    option target → option forward_args →
    gmap loc (mattrs params) * rt_state →
    result tensor * (gmap loc (mattrs params) * rt_state);
  compute_gradients :
    gmap loc (list hook_entry) → module → list tensor →
    option target → option forward_args →
    gmap loc (mattrs params) * rt_state →
    result (list tensor) * (gmap loc (mattrs params) * rt_state);
  apply_gradient_requirements : list tensor → rt_state → gradient_mask * rt_state;
  undo_gradient_requirements : list tensor → gradient_mask → rt_state → rt_state;
  remove_tensor_hook : nat → rt_state → rt_state;
  isinstance_ManipulateModules : rule_class → bool;
  _format_input : inputs_arg → list tensor;
  _format_attributions : bool → value → result value;
}.

(** ** The store and the engine object *)

Record world `{Runtime} := {
  attrs : gmap loc (mattrs params);       (* attributes of the module objects *)
  hooks : gmap loc (list hook_entry);     (* their hook dictionaries *)
  rt : rt_state;
  next_loc : loc;                         (* allocation of objects *)
  next_handle : nat;                      (* ids of removable handles *)
  next_rule : nat;                        (* identities of rule instances *)
  stdout : list layer_kind;               (* the warnings printed, by type *)
}.

(** An entry of the [rules] argument: [None], a rule object (with the hook
    handles it may carry), or an object that is no [PropagationRule]. *)
Record user_rule := {
  ur_class : rule_class;
  _handle_input_hook : option handle;
  _handle_output_hook : option handle;
  _handle_layer_hook : option handle;
}.

Inductive rule_arg :=
  | RuleNone
  | RuleObj (r : user_rule)
  | NotARule.

Global Instance handle_eq_dec : EqDecision handle.
Proof. solve_decision. Defined.
Global Instance user_rule_eq_dec : EqDecision user_rule.
Proof. solve_decision. Defined.
Global Instance rule_arg_eq_dec : EqDecision rule_arg.
Proof. solve_decision. Defined.

(** The attributes of an [LRP] object. *)
Record LRP_obj := {
  model : module;
  layers : list module;
  changes_weights : bool;
  rules : list rule_arg;
  return_for_all_layers : bool;
  verbose : bool;
  backward_handles : list handle;
  forward_handles : list handle;
}.

Section Engine.
Context {TL : TensorLib} {RT : Runtime}.

Definition state : Type := LRP_obj * world.

(** *** Assignments to attributes of [self] and updates of the store *)

Definition set_model (m : module) (o : LRP_obj) : LRP_obj :=
  {| model := m; layers := layers o; changes_weights := changes_weights o;
     rules := rules o; return_for_all_layers := return_for_all_layers o;
     verbose := verbose o; backward_handles := backward_handles o;
     forward_handles := forward_handles o |}.
Definition set_layers (ls : list module) (o : LRP_obj) : LRP_obj :=
  {| model := model o; layers := ls; changes_weights := changes_weights o;
     rules := rules o; return_for_all_layers := return_for_all_layers o;
     verbose := verbose o; backward_handles := backward_handles o;
     forward_handles := forward_handles o |}.
Definition set_changes_weights (b : bool) (o : LRP_obj) : LRP_obj :=
  {| model := model o; layers := layers o; changes_weights := b;
     rules := rules o; return_for_all_layers := return_for_all_layers o;
     verbose := verbose o; backward_handles := backward_handles o;
     forward_handles := forward_handles o |}.
Definition set_rules (rs : list rule_arg) (o : LRP_obj) : LRP_obj :=
  {| model := model o; layers := layers o; changes_weights := changes_weights o;
     rules := rs; return_for_all_layers := return_for_all_layers o;
     verbose := verbose o; backward_handles := backward_handles o;
     forward_handles := forward_handles o |}.
Definition set_return_for_all_layers (b : bool) (o : LRP_obj) : LRP_obj :=
  {| model := model o; layers := layers o; changes_weights := changes_weights o;
     rules := rules o; return_for_all_layers := b;
     verbose := verbose o; backward_handles := backward_handles o;
     forward_handles := forward_handles o |}.
Definition set_verbose (b : bool) (o : LRP_obj) : LRP_obj :=
  {| model := model o; layers := layers o; changes_weights := changes_weights o;
     rules := rules o; return_for_all_layers := return_for_all_layers o;
     verbose := b; backward_handles := backward_handles o;
     forward_handles := forward_handles o |}.
Definition set_backward_handles (hs : list handle) (o : LRP_obj) : LRP_obj :=
  {| model := model o; layers := layers o; changes_weights := changes_weights o;
     rules := rules o; return_for_all_layers := return_for_all_layers o;
     verbose := verbose o; backward_handles := hs;
     forward_handles := forward_handles o |}.
Definition set_forward_handles (hs : list handle) (o : LRP_obj) : LRP_obj :=
  {| model := model o; layers := layers o; changes_weights := changes_weights o;
     rules := rules o; return_for_all_layers := return_for_all_layers o;
     verbose := verbose o; backward_handles := backward_handles o;
     forward_handles := hs |}.

Definition set_attrs_rt (a : gmap loc (mattrs params)) (r : rt_state) (w : world) : world :=
  {| attrs := a; hooks := hooks w; rt := r; next_loc := next_loc w;
     next_handle := next_handle w; next_rule := next_rule w; stdout := stdout w |}.
Definition set_rt (r : rt_state) (w : world) : world := set_attrs_rt (attrs w) r w.
Definition set_hooks (h : gmap loc (list hook_entry)) (w : world) : world :=
  {| attrs := attrs w; hooks := h; rt := rt w; next_loc := next_loc w;
     next_handle := next_handle w; next_rule := next_rule w; stdout := stdout w |}.

(** [self.x = v] and a read of [self.x], in a method. *)
Definition assign (f : LRP_obj → LRP_obj) : M state unit :=
  modify (λ s, (f s.1, s.2)).
Definition self_ {A} (f : LRP_obj → A) : M state A := gets (λ s, f s.1).
Definition update_world (f : world → world) : M state unit :=
  modify (λ s, (s.1, f s.2)).

(** *** [copy.deepcopy] of a model *)

(** A new object at a fresh location, with a copy of the attributes and of
    the hook dictionaries of the object at [l]. *)
Definition copy_object (l : loc) (w : world) : loc * world :=
  let l' := next_loc w in
  (l', {| attrs := match attrs w !! l with
                   | Some a => <[l' := a]> (attrs w)
                   | None => attrs w
                   end;
          hooks := match hooks w !! l with
                   | Some h => <[l' := h]> (hooks w)
                   | None => hooks w
                   end;
          rt := rt w; next_loc := S l';
          next_handle := next_handle w; next_rule := next_rule w;
          stdout := stdout w |}).

(** The module objects of a model are pairwise distinct, so that no memo is
    needed: every object met is copied once. *)
Fixpoint deepcopy (m : module) (w : world) : module * world :=
  let 'Module l k cs := m in
  let '(l', w1) := copy_object l w in
  let '(cs', w2) :=
    (fix copy_children cs w :=
       match cs with
       | [] => ([], w)
       | c :: cs0 =>
           let '(c', w') := deepcopy c w in
           let '(cs0', w'') := copy_children cs0 w' in
           (c' :: cs0', w'')
       end) cs w1 in
  (Module l' k cs', w2).

(** *** Model traversal *)

Definition isinstance_Sigmoid_Tanh (layer : module) : bool :=
  match kind layer with
  | Sigmoid | Tanh => true
  | _ => false
  end.

Fixpoint _get_layers (model : module) : M state unit :=
  let 'Module _ _ cs := model in
  for_each (λ layer,
    match children layer with
    | [] =>
        if isinstance_Sigmoid_Tanh layer then
          raise (TypeError
            "Invalid activation used. Implementation is only valid for ReLU activations.")
        else assign (λ o, set_layers (layers o ++ [layer]) o)
    | _ :: _ => _get_layers layer
    end) cs.

(** *** Construction *)

Definition _check_rules : M state unit :=
  rs ← self_ rules;
  for_each (λ rule,
    match rule with
    | RuleNone => ret tt
    | NotARule =>
        raise (TypeError
          "Please select propagation rules inherited from class PropagationRule")
    | RuleObj r =>
        if isinstance_ManipulateModules (ur_class r)
        then assign (set_changes_weights true)
        else ret tt
    end) rs.

(** The positional arguments of a call. *)
Inductive pyarg :=
  | ArgModule (m : module)
  | ArgRules (rs : list rule_arg).

(** The attributes before [__init__] has assigned them; each of them is
    assigned before it is read. *)
Definition new_object (m : module) : LRP_obj :=
  {| model := m; layers := []; changes_weights := false; rules := [];
     return_for_all_layers := false; verbose := false;
     backward_handles := []; forward_handles := [] |}.

(** [LRP.__init__(self, model, rules)]: both parameters are required, a call
    that passes fewer or more arguments raises [TypeError] before the body
    runs.  The result is the constructed object. *)
Definition LRP___init__ (args : list pyarg) (w : world) : result LRP_obj * world :=
  match args with
  | [ArgModule model; ArgRules rules] =>
      let body : M state unit :=
        assign (set_model model);;
        assign (set_layers []);;
        _get_layers model;;
        assign (set_changes_weights false);;
        assign (set_rules rules);;
        _check_rules in
      match body (new_object model, w) with
      | (Ok _, (self, w')) => (Ok self, w')
      | (Err e, (_, w')) => (Err e, w')
      end
  | [] | [_] =>
      (Err (TypeError "__init__() missing required positional argument"), w)
  | _ =>
      (Err (TypeError "__init__() got unexpected arguments"), w)
  end.

(** *** Hooks *)

Definition hooks_of (w : world) (l : loc) : list hook_entry :=
  default [] (hooks w !! l).

(** [layer.register_*_hook(callback)]: a new entry in the hook dictionary
    of the module, and the handle that removes it. *)
Definition register_hook (layer : module) (slot : hook_slot) (cb : callback)
  : M state handle :=
  λ s,
    let w := s.2 in
    let id := next_handle w in
    let e := {| he_id := id; he_slot := slot; he_cb := cb |} in
    (Ok (ModuleHandle (ident layer) id),
     (s.1, {| attrs := attrs w;
              hooks := <[ident layer := hooks_of w (ident layer) ++ [e]]> (hooks w);
              rt := rt w; next_loc := next_loc w;
              next_handle := S id; next_rule := next_rule w;
              stdout := stdout w |})).

(** [handle.remove()]: deletes the entry if it is still there. *)
Definition remove_handle (h : handle) (w : world) : world :=
  match h with
  | ModuleHandle l id =>
      set_hooks (alter (filter (λ e, he_id e ≠ id)) l (hooks w)) w
  | TensorHandle id => set_rt (remove_tensor_hook id (rt w)) w
  end.

Definition handle_remove (h : handle) : M state unit :=
  update_world (remove_handle h).

(** [cls()]: a new rule instance. *)
Definition new_rule (cls : rule_class) : M state rule_inst :=
  λ s,
    let w := s.2 in
    (Ok {| ri_id := next_rule w; ri_class := cls |},
     (s.1, {| attrs := attrs w; hooks := hooks w; rt := rt w;
              next_loc := next_loc w; next_handle := next_handle w;
              next_rule := S (next_rule w); stdout := stdout w |})).

Definition print_no_rule (k : layer_kind) : M state unit :=
  update_world (λ w,
    {| attrs := attrs w; hooks := hooks w; rt := rt w;
       next_loc := next_loc w; next_handle := next_handle w;
       next_rule := next_rule w; stdout := stdout w ++ [k] |}).

Definition bound (m : rule_method) (r : rule_inst) : callback :=
  {| cb_rule := r; cb_method := m |}.

(** The loop of [_register_forward_hooks].  [rule] is the local variable of
    that name: unbound ([None]) until the first supported linear layer has
    assigned it, and read by the branch of the activation layers. *)
Fixpoint _register_forward_hooks_from (rule : option rule_inst) (ls : list module)
  : M state unit :=
  match ls with
  | [] => ret tt
  | layer :: rest =>
      match dict_get SUPPORTED_LINEAR_LAYERS (kind layer) with
      | Some cls =>
          rule' ← new_rule cls;
          forward_handle ← register_hook layer ForwardHook (bound forward_hook rule');
          assign (λ o, set_forward_handles (forward_handles o ++ [forward_handle]) o);;
          all ← self_ return_for_all_layers;
          (if all : bool then
             relevance_handle ←
               register_hook layer BackwardHook (bound _backward_hook_relevance rule');
             assign (λ o, set_backward_handles (backward_handles o ++ [relevance_handle]) o)
           else ret tt);;
          _register_forward_hooks_from (Some rule') rest
      | None =>
          if bool_decide (kind layer ∈ SUPPORTED_NON_LINEAR_LAYERS) then
            match rule with
            | None => raise (UnboundLocalError "rule")
            | Some r =>
                backward_handle ←
                  register_hook layer BackwardHook (bound backward_hook_activation r);
                assign (λ o, set_backward_handles (backward_handles o ++ [backward_handle]) o);;
                _register_forward_hooks_from rule rest
            end
          else
            print_no_rule (kind layer);;
            _register_forward_hooks_from rule rest
      end
  end.

Definition _register_forward_hooks : M state unit :=
  ls ← self_ layers;
  _register_forward_hooks_from None ls.

Definition _register_weight_hooks : M state unit :=
  ls ← self_ layers;
  for_each (λ layer,
    match dict_get SUPPORTED_LINEAR_LAYERS (kind layer) with
    | Some cls =>
        rule ← new_rule cls;
        if isinstance_ManipulateModules (ri_class rule) then
          forward_handle ←
            register_hook layer ForwardHook (bound forward_hook_weights rule);
          assign (λ o, set_forward_handles (forward_handles o ++ [forward_handle]) o)
        else ret tt
    | None => ret tt
    end) ls.

Definition _register_pre_hooks : M state unit :=
  ls ← self_ layers;
  for_each (λ layer,
    match dict_get SUPPORTED_LINEAR_LAYERS (kind layer) with
    | Some cls =>
        rule ← new_rule cls;
        if isinstance_ManipulateModules (ri_class rule) then
          forward_handle ←
            register_hook layer ForwardPreHook (bound forward_pre_hook_activations rule);
          assign (λ o, set_forward_handles (forward_handles o ++ [forward_handle]) o)
        else ret tt
    | None => ret tt
    end) ls.

Definition _remove_forward_hooks : M state unit :=
  hs ← self_ forward_handles;
  for_each handle_remove hs.

(** [if hasattr(rule, name): getattr(rule, name).remove()] *)
Definition remove_if_present (h : option handle) : M state unit :=
  match h with
  | Some h => handle_remove h
  | None => ret tt
  end.

Definition _remove_backward_hooks : M state unit :=
  hs ← self_ backward_handles;
  for_each handle_remove hs;;
  rs ← self_ rules;
  for_each (λ rule,
    match rule with
    | RuleObj r =>
        remove_if_present (_handle_input_hook r);;
        remove_if_present (_handle_output_hook r);;
        remove_if_present (_handle_layer_hook r)
    | RuleNone | NotARule => ret tt
    end) rs.

(** *** Calls into the runtime *)

Definition run_forward (inputs : list tensor)
    (tgt : option target) (args : option forward_args) : M state tensor :=
  λ s,
    let w := s.2 in
    let '(r, (a, t)) :=
      _run_forward (hooks w) (model s.1) inputs tgt args (attrs w, rt w) in
    (r, (s.1, set_attrs_rt a t w)).

Definition run_compute_gradients (inputs : list tensor)
    (tgt : option target) (args : option forward_args) : M state (list tensor) :=
  λ s,
    let w := s.2 in
    let '(r, (a, t)) :=
      compute_gradients (hooks w) (model s.1) inputs tgt args (attrs w, rt w) in
    (r, (s.1, set_attrs_rt a t w)).

Definition run_apply_gradient_requirements (inputs : list tensor)
  : M state gradient_mask :=
  λ s,
    let '(mask, t) := apply_gradient_requirements inputs (rt s.2) in
    (Ok mask, (s.1, set_rt t s.2)).

Definition run_undo_gradient_requirements (inputs : list tensor)
    (mask : gradient_mask) : M state unit :=
  update_world (λ w, set_rt (undo_gradient_requirements inputs mask (rt w)) w).

Definition _change_weights (inputs : list tensor) : M state unit :=
  cw ← self_ changes_weights;
  if cw : bool then
    _register_weight_hooks;;
    _ ← run_forward inputs None None;
    _remove_forward_hooks;;
    _register_pre_hooks
  else ret tt.

(** *** Relevances *)

(** [tuple(relevance * input * output for relevance, input in zip(...))] *)
Definition scale_by_input_and_output (relevances inputs : list tensor)
    (output : tensor) : result (list tensor) :=
  map_result (λ '(relevance, input),
    match tmul relevance input with
    | Ok ri => tmul ri output
    | Err e => Err e
    end) (zip relevances inputs).

(** [tuple(relevance * input for relevance, input in zip(...))] *)
Definition scale_by_input (relevances inputs : list tensor) : result (list tensor) :=
  map_result (λ '(relevance, input), tmul relevance input) (zip relevances inputs).

(** [hasattr(layer, "relevance")] and [layer.relevance] *)
Definition layer_relevance (w : world) (layer : module) : option tensor :=
  attrs w !! ident layer ≫= relevance.

(** The loop of [_select_layer_output] on the list [relevances]. *)
Fixpoint collect_layer_relevances (w : world) (ls : list module)
    (relevances : list tensor) : result (list tensor) :=
  match ls with
  | [] => Ok relevances
  | layer :: rest =>
      match layer_relevance w layer with
      | Some r => collect_layer_relevances w rest (relevances ++ [r])
      | None =>
          match last relevances with
          | Some r => collect_layer_relevances w rest (relevances ++ [r])
          | None => Err IndexError
          end
      end
  end.

Definition _select_layer_output (relevances : list tensor) : M state value :=
  all ← self_ return_for_all_layers;
  if all : bool then
    ls ← self_ layers;
    w ← gets snd;
    rs ← lift_result (collect_layer_relevances w ls relevances);
    ret (VTuple [VList (VTensor <$> rs)])
  else ret (VTuple (VTensor <$> relevances)).

(** [v[0]] *)
Definition index0 (v : value) : result value :=
  match v with
  | VTuple (x :: _) | VList (x :: _) => Ok x
  | VTuple [] | VList [] => Err IndexError
  | VTensor t =>
      match tindex0 t with
      | Ok t0 => Ok (VTensor t0)
      | Err e => Err e
      end
  end.

(** [torch.sum(v)]: the argument has to be a tensor. *)
Definition torch_sum_value (v : value) : result tensor :=
  match v with
  | VTensor t => Ok (torch_sum t)
  | VList _ | VTuple _ =>
      Err (TypeError "sum(): argument 'input' must be Tensor")
  end.

Definition compute_convergence_delta (attributions : value) (inputs : list tensor)
    (additional_forward_args : option forward_args) (tgt : option target)
  : M state tensor :=
  rel ← run_forward inputs tgt additional_forward_args;
  a ← lift_result (torch_sum_value attributions);
  ret (tsub (torch_sum rel) a).

Definition isinstance_tuple (inputs : inputs_arg) : bool :=
  match inputs with
  | SingleTensor _ => false
  | TensorTuple _ => true
  end.

(** *** [LRP.attribute] *)

Definition attribute (inputs : inputs_arg) (tgt : option target)
    (return_convergence_delta : bool)
    (additional_forward_args : option forward_args)
    (return_for_all_layers_arg : bool) (verbose_arg : bool) : M state value :=
  assign (set_changes_weights true);;
  cw ← self_ changes_weights;
  (if cw : bool then
     m ← self_ model;
     m' ← (λ s, let '(m', w') := deepcopy m s.2 in (Ok m', (s.1, w')));
     assign (set_model m');;
     assign (set_layers []);;
     m'' ← self_ model;
     _get_layers m''
   else ret tt);;
  assign (set_return_for_all_layers return_for_all_layers_arg);;
  assign (set_verbose verbose_arg);;
  assign (set_backward_handles []);;
  assign (set_forward_handles []);;
  let is_inputs_tuple := isinstance_tuple inputs in
  let inputs := _format_input inputs in
  output ← run_forward inputs tgt additional_forward_args;
  gradient_mask ← run_apply_gradient_requirements inputs;
  _change_weights inputs;;
  _register_forward_hooks;;
  relevances ← run_compute_gradients inputs tgt additional_forward_args;
  relevances ← lift_result (scale_by_input_and_output relevances inputs output);
  _remove_backward_hooks;;
  _remove_forward_hooks;;
  run_undo_gradient_requirements inputs gradient_mask;;
  relevances ← _select_layer_output relevances;
  if return_convergence_delta then
    r0 ← lift_result (index0 relevances);
    delta ← compute_convergence_delta r0 inputs additional_forward_args tgt;
    a ← lift_result (_format_attributions is_inputs_tuple relevances);
    ret (VTuple [a; VTensor delta])
  else
    lift_result (_format_attributions is_inputs_tuple relevances).

End Engine.

(** ** The layer-scoped variant *)

(** The attributes of a [LayerLRP] object: those of [LRP], [layer] (which
    [LayerAttribution.__init__] stores) and [original_model], which
    [attribute] reads and no method of these sources assigns. *)
Record LayerLRP_obj := {
  base : LRP_obj;
  layer : module;
  original_model : option module;
}.

(** The methods [LayerLRP.attribute] calls on [self] that neither class
    defines in these sources. *)
Class LayerHelpers `{Runtime} := {
  _get_rules : M (LayerLRP_obj * world) unit;
  _check_if_weights_are_changed : M (LayerLRP_obj * world) unit;
  _remove_rules : M (LayerLRP_obj * world) unit;
}.

Section LayerEngine.
Context {TL : TensorLib} {RT : Runtime} {LH : LayerHelpers}.

Definition lstate : Type := LayerLRP_obj * world.

(** A method inherited from [LRP], run on a [LayerLRP] object. *)
Definition inherited {A} (c : M state A) : M lstate A :=
  λ s,
    let '(r, (o, w)) := c (base s.1, s.2) in
    (r, ({| base := o; layer := layer s.1; original_model := original_model s.1 |}, w)).

(** [LayerLRP.__init__(self, model, layer)]: after
    [LayerAttribution.__init__(self, model, layer)] it calls
    [LRP.__init__(self, model)], with one argument where two are required. *)
Definition LayerLRP___init__ (model_arg layer_arg : module) (w : world)
  : result LayerLRP_obj * world :=
  match LRP___init__ [ArgModule model_arg] w with
  | (Ok o, w') =>
      (Ok {| base := o; layer := layer_arg; original_model := None |}, w')
  | (Err e, w') => (Err e, w')
  end.

Definition LayerLRP__select_layer_output (layer : module) : M lstate value :=
  λ s,
    match layer_relevance s.2 layer with
    | Some r => (Ok (VTensor r), s)
    | None => (Err (AttributeError "relevance"), s)
    end.

(** [LayerLRP.attribute] up to the local [relevances] of the gradient pass
    (the statements before the hooks are removed). *)
Definition LayerLRP_attribute_relevances (inputs : list tensor) (tgt : option target)
    (additional_forward_args : option forward_args)
    (return_for_all_layers_arg : bool) (verbose_arg : bool)
  : M lstate (gradient_mask * list tensor) :=
  inherited (assign (set_verbose verbose_arg));;
  om ← gets (λ s : lstate, original_model s.1);
  m ← match om with
      | Some m => ret m
      | None => raise (AttributeError "original_model")
      end;
  m' ← (λ s : lstate, let '(m', w') := deepcopy m s.2 in (Ok m', (s.1, w')));
  inherited (assign (set_model m'));;
  inherited (assign (set_layers []));;
  inherited (m'' ← self_ model; _get_layers m'');;
  _get_rules;;
  _check_if_weights_are_changed;;
  inherited (assign (set_return_for_all_layers return_for_all_layers_arg));;
  inherited (assign (set_backward_handles []));;
  inherited (assign (set_forward_handles []));;
  gradient_mask ← inherited (run_apply_gradient_requirements inputs);
  inherited (_change_weights inputs);;
  inherited _register_forward_hooks;;
  relevances ← inherited (run_compute_gradients inputs tgt additional_forward_args);
  relevances ← lift_result (scale_by_input relevances inputs);
  ret (gradient_mask, relevances).

Definition LayerLRP_attribute (inputs : inputs_arg) (tgt : option target)
    (additional_forward_args : option forward_args)
    (return_convergence_delta : bool)
    (return_for_all_layers_arg : bool) (verbose_arg : bool) : M lstate value :=
  let is_inputs_tuple := isinstance_tuple inputs in
  let inputs := _format_input inputs in
  '(gradient_mask, relevances) ←
    LayerLRP_attribute_relevances inputs tgt additional_forward_args
      return_for_all_layers_arg verbose_arg;
  inherited _remove_backward_hooks;;
  inherited _remove_forward_hooks;;
  inherited (run_undo_gradient_requirements inputs gradient_mask);;
  _remove_rules;;
  l ← gets (λ s : lstate, layer s.1);
  relevances ← LayerLRP__select_layer_output l;
  if return_convergence_delta then
    r0 ← lift_result (index0 relevances);
    delta ← inherited (compute_convergence_delta r0 inputs additional_forward_args tgt);
    a ← lift_result (_format_attributions is_inputs_tuple relevances);
    ret (VTuple [a; VTensor delta])
  else
    lift_result (_format_attributions is_inputs_tuple relevances).

End LayerEngine.

(** ** A small tensor library and runtime, for running the engine *)

(** Tensors of integers with up to two dimensions. *)
Inductive ztensor :=
  | T0 (x : Z)
  | T1 (v : list Z)
  | T2 (rows : list (list Z)).

(** Broadcasting of two sequences along one dimension: equal lengths are
    paired, a length of one is repeated, anything else is an error. *)
Definition broadcast_dim {A B C} (f : A → B → result C) (u : list A) (v : list B)
  : result (list C) :=
  if decide (length u = length v) then map_result (λ p, f p.1 p.2) (zip u v)
  else match u, v with
       | [a], _ => map_result (f a) v
       | _, [b] => map_result (λ a, f a b) u
       | _, _ => Err (RuntimeFailure "The size of tensor a must match the size of tensor b")
       end.

Definition zrow (f : Z → Z → Z) (u v : list Z) : result (list Z) :=
  broadcast_dim (λ a b, Ok (f a b)) u v.

Definition with_result {A B} (g : A → B) (r : result A) : result B :=
  match r with
  | Ok a => Ok (g a)
  | Err e => Err e
  end.

(** An element-wise operation; the shapes are aligned at the last dimension. *)
Definition zbroadcast (f : Z → Z → Z) (a b : ztensor) : result ztensor :=
  match a, b with
  | T0 x, T0 y => Ok (T0 (f x y))
  | T0 x, T1 v => Ok (T1 (map (f x) v))
  | T1 u, T0 y => Ok (T1 (map (λ x, f x y) u))
  | T0 x, T2 r => Ok (T2 (map (map (f x)) r))
  | T2 r, T0 y => Ok (T2 (map (map (λ x, f x y)) r))
  | T1 u, T1 v => with_result T1 (zrow f u v)
  | T2 r, T1 v => with_result T2 (map_result (λ u, zrow f u v) r)
  | T1 u, T2 r => with_result T2 (map_result (λ v, zrow f u v) r)
  | T2 r, T2 q => with_result T2 (broadcast_dim (zrow f) r q)
  end.

Definition zsum (l : list Z) : Z := foldr Z.add 0%Z l.

Definition ztotal (t : ztensor) : Z :=
  match t with
  | T0 x => x
  | T1 v => zsum v
  | T2 r => zsum (map zsum r)
  end.

(** The number of elements of a tensor, and the size of its dimension 0
    (the number of examples). *)
Definition numel (t : ztensor) : nat :=
  match t with
  | T0 _ => 1
  | T1 v => length v
  | T2 r => length (concat r)
  end.

Definition size0 (t : ztensor) : nat :=
  match t with
  | T0 _ => 0
  | T1 v => length v
  | T2 r => length r
  end.

Definition zones_like (t : ztensor) : ztensor :=
  match t with
  | T0 _ => T0 1
  | T1 v => T1 (map (λ _, 1%Z) v)
  | T2 r => T2 (map (map (λ _, 1%Z)) r)
  end.

Global Instance ztensors : TensorLib := {|
  tensor := ztensor;
  tmul := zbroadcast Z.mul;
  torch_sum t := T0 (ztotal t);
  tsub a b := match zbroadcast Z.sub a b with Ok t => t | Err _ => T0 0 end;
  tindex0 t :=
    match t with
    | T2 (r :: _) => Ok (T1 r)
    | T1 (x :: _) => Ok (T0 x)
    | _ => Err IndexError
    end;
|}.

(** The model of the toy runtime sums the features of each example of its
    first input, whatever its layers: one output per example, so that the
    only target is [None] or index 0.  Its state tells whether a backward
    pass can be run. *)
Definition toy_output (inputs : list ztensor) (tgt : option nat) : result ztensor :=
  match tgt with
  | Some (S _) => Err (RuntimeFailure "index out of range")
  | _ =>
      match inputs with
      | [] => Err (RuntimeFailure "forward() missing argument")
      | T2 r :: _ => Ok (T1 (map zsum r))
      | t :: _ => Ok t
      end
  end.

Definition has_relevance_hook (h : list hook_entry) : bool :=
  bool_decide (Exists (λ e, he_slot e = BackwardHook
                            ∧ cb_method (he_cb e) = _backward_hook_relevance) h).

(** The backward pass of the toy runtime: a module with a relevance hook
    gets its [relevance] attribute set. *)
Definition toy_backward (hk : gmap loc (list hook_entry)) (out : ztensor)
    (ls : list loc) (a : gmap loc (mattrs unit)) : gmap loc (mattrs unit) :=
  foldr (λ l a,
    if has_relevance_hook (default [] (hk !! l))
    then <[l := {| relevance := Some out; parameters := tt |}]> a
    else a) a ls.

Global Instance toy_runtime : Runtime := {|
  params := unit;
  rt_state := bool;
  target := nat;
  forward_args := unit;
  gradient_mask := unit;
  _run_forward hk m inputs tgt args st := (toy_output inputs tgt, st);
  compute_gradients hk m inputs tgt args st :=
    match toy_output inputs tgt with
    | Ok out =>
        if st.2 : bool
        then (Ok (zones_like <$> inputs), (toy_backward hk out (locs m) st.1, st.2))
        else (Err (RuntimeFailure "element 0 of tensors does not require grad"), st)
    | Err e => (Err e, st)
    end;
  apply_gradient_requirements inputs t := (tt, t);
  undo_gradient_requirements inputs mask t := t;
  remove_tensor_hook id t := t;
  isinstance_ManipulateModules cls :=
    match cls with
    | Alpha1_Beta0_Rule | GammaRule => true
    | EpsilonRule => false
    end;
  _format_input inputs :=
    match inputs with
    | SingleTensor t => [t]
    | TensorTuple ts => ts
    end;
  _format_attributions is_inputs_tuple attributions :=
    match attributions with
    | VTuple vs =>
        if is_inputs_tuple then Ok attributions
        else match vs with
             | [v] => Ok v
             | _ => Err (RuntimeFailure "AssertionError")
             end
    | _ => Err (RuntimeFailure "AssertionError")
    end;
|}.

Global Instance toy_helpers : LayerHelpers := {|
  _get_rules := ret tt;
  _check_if_weights_are_changed := ret tt;
  _remove_rules := ret tt;
|}.

(** A model [Net(fc: Linear, relu: ReLU)] allocated at locations 0 to 2 of
    an otherwise empty store. *)
Definition toy_net : module :=
  Module 0 (OtherModule "Net") [Module 1 Linear []; Module 2 ReLU []].

Definition toy_world : world :=
  {| attrs := {[ 0 := {| relevance := None; parameters := tt |};
                 1 := {| relevance := None; parameters := tt |};
                 2 := {| relevance := None; parameters := tt |} ]};
     hooks := ∅; rt := true; next_loc := 3; next_handle := 0; next_rule := 0;
     stdout := [] |}.

(** The same store when no backward pass can be run. *)
Definition toy_world_no_grad : world :=
  {| attrs := attrs toy_world; hooks := ∅; rt := false; next_loc := 3;
     next_handle := 0; next_rule := 0; stdout := [] |}.

Definition toy_lrp : LRP_obj :=
  {| model := toy_net; layers := [Module 1 Linear []; Module 2 ReLU []];
     changes_weights := false; rules := [RuleNone; RuleNone];
     return_for_all_layers := false; verbose := false;
     backward_handles := []; forward_handles := [] |}.

(** A [LayerLRP] object for the layer [fc], with the attributes that the
    sources leave unset filled in. *)
Definition toy_layer_lrp : LayerLRP_obj :=
  {| base := toy_lrp; layer := Module 1 Linear []; original_model := Some toy_net |}.

(** The same with a sigmoid in the place of the rectifier. *)
Definition toy_sigmoid_net : module :=
  Module 0 (OtherModule "Net") [Module 1 Linear []; Module 2 Sigmoid []].

(** Two examples with two features each. *)
Definition toy_input : ztensor := T2 [[1; 2]; [3; 4]]%Z.

Definition toy_inputs : list (@tensor ztensors) := [toy_input].
Definition toy_state : @state ztensors toy_runtime := (toy_lrp, toy_world).

Definition toy_single : inputs_arg := SingleTensor toy_input.

(** A target index that the one-score output of the toy model lacks. *)
Definition toy_bad_target : option (@target ztensors toy_runtime) := Some 5.
Definition toy_pair : inputs_arg := TensorTuple [toy_input; toy_input].

(** What [attribute] returns for [toy_single]: the gradient (all ones)
    times the input times the output [[3; 7]], which the product aligns
    with the last dimension. *)
Definition toy_attribution : value := VTensor (T2 [[3; 14]; [9; 28]]%Z).

(** ** Vocabulary of the specification *)

(** A property of the state that a computation keeps, however it ends. *)
Definition preserves {S A} (P : S → Prop) (c : M S A) : Prop :=
  ∀ s, P s → P (c s).2.

(** The handles a rule object of the caller carries. *)
Definition rule_handles (r : rule_arg) : list handle :=
  match r with
  | RuleObj u =>
      omap id [_handle_input_hook u; _handle_output_hook u; _handle_layer_hook u]
  | RuleNone | NotARule => []
  end.

(** A handle that is not the handle of a hook on a module of [L]. *)
Definition handle_off (L : list loc) (h : handle) : Prop :=
  match h with
  | ModuleHandle l _ => l ∉ L
  | TensorHandle _ => True
  end.

(** The leaf layers below a model, in traversal order. *)
Fixpoint leaves (m : module) : list module :=
  let 'Module _ _ cs := m in
  flat_map (λ c, match children c with
                 | [] => [c]
                 | _ :: _ => leaves c
                 end) cs.

(** The leaf layers that [_get_layers] appends before it stops: all of them,
    or those before the first sigmoid or tanh. *)
Fixpoint accepted (ls : list module) : list module :=
  match ls with
  | [] => []
  | l :: ls' => if isinstance_Sigmoid_Tanh l then [] else l :: accepted ls'
  end.

Definition rejected (ls : list module) : bool :=
  existsb isinstance_Sigmoid_Tanh ls.

Section Vocabulary.
Context {TL : TensorLib} {RT : Runtime}.

Definition get_layers_msg : string :=
  "Invalid activation used. Implementation is only valid for ReLU activations.".


Definition get_layers_body : module → M state unit :=
  λ layer,
    match children layer with
    | [] =>
        if isinstance_Sigmoid_Tanh layer then raise (TypeError get_layers_msg)
        else assign (λ o, set_layers (layers o ++ [layer]) o)
    | _ :: _ => _get_layers layer
    end.

Definition deepcopy_children : list module → world → list module * world :=
  fix copy_children cs w :=
    match cs with
    | [] => ([], w)
    | c :: cs0 =>
        let '(c', w') := deepcopy c w in
        let '(cs0', w'') := copy_children cs0 w' in
        (c' :: cs0', w'')
    end.

(** What a deep copy leaves as it was: every object that existed, the
    runtime state, the counters of handles and rules, the output. *)
Record copy_extends (w w' : world) : Prop := {
  ce_next : next_loc w ≤ next_loc w';
  ce_attrs : ∀ l, l < next_loc w → attrs w' !! l = attrs w !! l;
  ce_hooks : ∀ l, l < next_loc w → hooks w' !! l = hooks w !! l;
  ce_entries : ∀ l e, e ∈ hooks_of w' l → ∃ l0, e ∈ hooks_of w l0;
  ce_rt : rt w' = rt w;
  ce_next_handle : next_handle w' = next_handle w;
  ce_next_rule : next_rule w' = next_rule w;
  ce_stdout : stdout w' = stdout w;
}.

(** [attribute] from [is_inputs_tuple = isinstance(inputs, tuple)] on. *)
Definition attribute_after_setup (inputs : inputs_arg) (tgt : option target)
    (return_convergence_delta : bool)
    (additional_forward_args : option forward_args) : M state value :=
  let is_inputs_tuple := isinstance_tuple inputs in
  let inputs := _format_input inputs in
  output ← run_forward inputs tgt additional_forward_args;
  gradient_mask ← run_apply_gradient_requirements inputs;
  _change_weights inputs;;
  _register_forward_hooks;;
  relevances ← run_compute_gradients inputs tgt additional_forward_args;
  relevances ← lift_result (scale_by_input_and_output relevances inputs output);
  _remove_backward_hooks;;
  _remove_forward_hooks;;
  run_undo_gradient_requirements inputs gradient_mask;;
  relevances ← _select_layer_output relevances;
  if return_convergence_delta then
    r0 ← lift_result (index0 relevances);
    delta ← compute_convergence_delta r0 inputs additional_forward_args tgt;
    a ← lift_result (_format_attributions is_inputs_tuple relevances);
    ret (VTuple [a; VTensor delta])
  else
    lift_result (_format_attributions is_inputs_tuple relevances).

(** The engine object once the model is copied and traversed. *)
Definition engine_on (m' : module) (o : LRP_obj) (all verb : bool) : LRP_obj :=
  {| model := m'; layers := leaves m'; changes_weights := true;
     rules := rules o; return_for_all_layers := all; verbose := verb;
     backward_handles := []; forward_handles := [] |}.

(** The engine object when the traversal of the copy has raised. *)
Definition engine_stopped (m' : module) (o : LRP_obj) : LRP_obj :=
  {| model := m'; layers := accepted (leaves m'); changes_weights := true;
     rules := rules o; return_for_all_layers := return_for_all_layers o;
     verbose := verbose o; backward_handles := backward_handles o;
     forward_handles := forward_handles o |}.

(** The module objects of [L] are in [w'] as they are in [w]: the same
    attributes, the same hook dictionaries. *)
Definition unchanged_on (L : list loc) (w w' : world) : Prop :=
  ∀ l, l ∈ L → attrs w' !! l = attrs w !! l ∧ hooks w' !! l = hooks w !! l.

(** The engine works away from the objects of [L]: they are as in [w0],
    and neither the model of the engine, nor its layers, nor a handle it
    holds is among them. *)
Record safe (L : list loc) (w0 : world) (s : state) : Prop := {
  safe_unchanged : unchanged_on L w0 s.2;
  safe_model : Forall (λ l, l ∉ L) (locs (model s.1));
  safe_layers : Forall (λ c, ident c ∉ L) (layers s.1);
  safe_forward_handles : Forall (handle_off L) (forward_handles s.1);
  safe_backward_handles : Forall (handle_off L) (backward_handles s.1);
  safe_rules : Forall (λ r, Forall (handle_off L) (rule_handles r)) (rules s.1);
}.

(** Every hook entry is older than the handle counter [n], or its handle
    is in one of the two lists of the engine. *)
Definition tracked (n : nat) (s : state) : Prop :=
  ∀ l e, e ∈ hooks_of s.2 l →
    he_id e < n ∨ ModuleHandle l (he_id e) ∈ forward_handles s.1 ++ backward_handles s.1.

(** No hook entry with an id from [n] on. *)
Definition released (n : nat) (w : world) : Prop :=
  ∀ l e, e ∈ hooks_of w l → he_id e < n.

(** An exception that a forward pass of the runtime raised. *)
Definition forward_failure (e : exn) : Prop :=
  ∃ hk m xs t a st st', _run_forward hk m xs t a st = (Err e, st').

(** The attributes of the engine that are fixed once the model is copied. *)
Definition fixed_fields (o : LRP_obj)
  : module * list module * list rule_arg * bool * bool :=
  (model o, layers o, rules o, return_for_all_layers o, changes_weights o).

Definition fixed (c0 : module * list module * list rule_arg * bool * bool)
    (s : state) : Prop :=
  fixed_fields s.1 = c0.

End Vocabulary.

Section ConstructorVocabulary.
Context {TL : TensorLib} {RT : Runtime}.

Definition check_rules_msg : string :=
  "Please select propagation rules inherited from class PropagationRule".

(** [isinstance(rule, PropagationRule_ManipulateModules)] on an entry of
    [rules]. *)
Definition manipulates (r : rule_arg) : bool :=
  match r with
  | RuleObj u => isinstance_ManipulateModules (ur_class u)
  | RuleNone | NotARule => false
  end.

(** The object [LRP(model, rules)] when the construction succeeds. *)
Definition constructed (m : module) (rs : list rule_arg) : LRP_obj :=
  {| model := m; layers := leaves m; changes_weights := existsb manipulates rs;
     rules := rs; return_for_all_layers := false; verbose := false;
     backward_handles := []; forward_handles := [] |}.

(** A layer of the registry, a pass-through layer, a layer without rule. *)
Definition in_registry (l : module) : bool :=
  bool_decide (is_Some (dict_get SUPPORTED_LINEAR_LAYERS (kind l))).

Definition is_activation (l : module) : bool :=
  bool_decide (kind l ∈ SUPPORTED_NON_LINEAR_LAYERS).

(** Whether the registration loop meets an activation layer while [rule]
    is unbound: before the first layer of the registry. *)
Fixpoint activation_before_rule (ls : list module) : bool :=
  match ls with
  | [] => false
  | l :: ls' =>
      if in_registry l then false
      else if is_activation l then true
      else activation_before_rule ls'
  end.

(** The layers for which the loop prints its warning. *)
Definition without_rule (ls : list module) : list layer_kind :=
  kind <$> filter (λ l, in_registry l = false ∧ is_activation l = false) ls.

(** The hooks that [_register_forward_hooks] installs: the forward hook of
    a rule, the pass-through backward hook, and the backward hook that
    records a relevance, the last one only when all layers are asked for. *)
Definition registration_hook (all : bool) (e : hook_entry) : Prop :=
  (he_slot e = ForwardHook ∧ cb_method (he_cb e) = forward_hook)
  ∨ (he_slot e = BackwardHook ∧ cb_method (he_cb e) = backward_hook_activation)
  ∨ (all = true ∧ he_slot e = BackwardHook
     ∧ cb_method (he_cb e) = _backward_hook_relevance).

(** Every entry is one of [s0] or a registration hook on a layer of [ls]. *)
Definition only_registration_hooks (s0 : state) (all : bool) (ls : list module)
    (s : state) : Prop :=
  return_for_all_layers s.1 = all
  ∧ ∀ l e, e ∈ hooks_of s.2 l →
      e ∈ hooks_of s0.2 l ∨ (registration_hook all e ∧ l ∈ ident <$> ls).

(** The hook that caches the inputs of a layer for the next pass. *)
Definition pre_hook (e : hook_entry) : Prop :=
  he_slot e = ForwardPreHook ∧ cb_method (he_cb e) = forward_pre_hook_activations.

End ConstructorVocabulary.

Section LayerVocabulary.
Context {TL : TensorLib} {RT : Runtime} {LH : LayerHelpers}.

(** [LayerLRP_attribute_relevances] once the model is copied and traversed. *)
Definition LayerLRP_after_setup (inputs : list tensor) (tgt : option target)
    (additional_forward_args : option forward_args)
    (return_for_all_layers_arg : bool)
  : M lstate (gradient_mask * list tensor) :=
  _get_rules;;
  _check_if_weights_are_changed;;
  inherited (assign (set_return_for_all_layers return_for_all_layers_arg));;
  inherited (assign (set_backward_handles []));;
  inherited (assign (set_forward_handles []));;
  gradient_mask ← inherited (run_apply_gradient_requirements inputs);
  inherited (_change_weights inputs);;
  inherited _register_forward_hooks;;
  relevances ← inherited (run_compute_gradients inputs tgt additional_forward_args);
  relevances ← lift_result (scale_by_input relevances inputs);
  ret (gradient_mask, relevances).

(** The engine part of a [LayerLRP] object works away from [L]. *)
Definition lsafe (L : list loc) (w0 : world) (s : lstate) : Prop :=
  safe L w0 (base s.1, s.2).

Definition with_base (o : LRP_obj) (lo : LayerLRP_obj) : LayerLRP_obj :=
  {| base := o; layer := layer lo; original_model := original_model lo |}.

End LayerVocabulary.

(** * Verification *)

(** ** Reasoning about methods *)

Lemma bind_unfold {S A B} (c : M S A) (k : A → M S B) (s : S) :
  (c ≫= k) s = match c s with
               | (Ok a, s') => k a s'
               | (Err e, s') => (Err e, s')
               end.
Proof. reflexivity. Qed.

Lemma bind_Ok_inv {S A B} (c : M S A) (k : A → M S B) s b s' :
  (c ≫= k) s = (Ok b, s') →
  ∃ a s1, c s = (Ok a, s1) ∧ k a s1 = (Ok b, s').
Proof.
  rewrite bind_unfold. destruct (c s) as [[a|e] s1]; [eauto | discriminate].
Qed.

Lemma bind_Ok_intro {S A B} (c : M S A) (k : A → M S B) s a s1 :
  c s = (Ok a, s1) → (c ≫= k) s = k a s1.
Proof. intros H. rewrite bind_unfold, H. reflexivity. Qed.

Lemma run_pair {A S} (r : result A * S) v : r.1 = Ok v → r = (Ok v, r.2).
Proof. destruct r as [r s]. by intros [= ->]. Qed.

Lemma bind_congr_at {S A B} (c c' : M S A) (k : A → M S B) s s' :
  c s = c' s' → (c ≫= k) s = (c' ≫= k) s'.
Proof. intros H. by rewrite !bind_unfold, H. Qed.

Lemma bind_Err_intro {S A B} (c : M S A) (k : A → M S B) s e s1 :
  c s = (Err e, s1) → (c ≫= k) s = (Err e, s1).
Proof. intros H. rewrite bind_unfold, H. reflexivity. Qed.

Lemma for_each_app {S X} (body : X → M S unit) xs ys s :
  for_each body (xs ++ ys) s
  = match for_each body xs s with
    | (Ok _, s') => for_each body ys s'
    | (Err e, s') => (Err e, s')
    end.
Proof.
  revert s. induction xs as [|x xs IH]; intros s; simpl; [reflexivity|].
  rewrite !bind_unfold. destruct (body x s) as [[[]|e] s1]; [apply IH | reflexivity].
Qed.

(** A property of the state that every iteration of a loop keeps is kept
    by the loop, whether it ends or raises. *)
Lemma for_each_preserves {S X} (P : S → Prop) (body : X → M S unit) xs :
  (∀ x s, x ∈ xs → P s → P (body x s).2) →
  ∀ s, P s → P (for_each body xs s).2.
Proof.
  induction xs as [|x xs IH]; intros Hbody s Hs; simpl; [exact Hs|].
  rewrite bind_unfold.
  pose proof (Hbody x s ltac:(left) Hs) as H1.
  destruct (body x s) as [[[]|e] s1]; simpl in *; [|exact H1].
  apply IH; [|exact H1]. intros y s' Hy. apply Hbody. by right.
Qed.

(** ** Induction on modules *)

Lemma module_ind' (P : module → Prop) :
  (∀ l k cs, Forall P cs → P (Module l k cs)) → ∀ m, P m.
Proof.
  intros H. fix IH 1. intros [l k cs]. apply H.
  induction cs as [|c cs IHcs]; constructor; [apply IH | exact IHcs].
Qed.

(** ** Model traversal *)

Lemma accepted_app xs ys :
  accepted (xs ++ ys) = if rejected xs then accepted xs else xs ++ accepted ys.
Proof.
  induction xs as [|x xs IH]; simpl; [reflexivity|].
  unfold rejected in *. simpl. destruct (isinstance_Sigmoid_Tanh x); simpl; [reflexivity|].
  rewrite IH. destruct (existsb _ xs); reflexivity.
Qed.

Lemma rejected_app xs ys : rejected (xs ++ ys) = rejected xs || rejected ys.
Proof. apply existsb_app. Qed.

Lemma accepted_all ls : rejected ls = false → accepted ls = ls.
Proof.
  induction ls as [|l ls IH]; simpl; [reflexivity|].
  unfold rejected. simpl. destruct (isinstance_Sigmoid_Tanh l); simpl; [discriminate|].
  intros H. f_equal. apply IH, H.
Qed.

Section Traversal.
Context {TL : TensorLib} {RT : Runtime}.

Lemma _get_layers_eq m : _get_layers m = for_each get_layers_body (children m).
Proof. by destruct m. Qed.

Lemma leaves_eq m :
  leaves m = flat_map (λ c, match children c with
                            | [] => [c]
                            | _ :: _ => leaves c
                            end) (children m).
Proof. by destruct m. Qed.

Lemma for_each_cons {S X} (body : X → M S unit) x xs :
  for_each body (x :: xs) = (body x ≫= λ _, for_each body xs).
Proof. reflexivity. Qed.

Lemma _get_layers_spec m : ∀ o (w : world),
  _get_layers m (o, w)
  = (if rejected (leaves m) then Err (TypeError get_layers_msg) else Ok tt,
     (set_layers (layers o ++ accepted (leaves m)) o, w)).
Proof.
  induction m as [l k cs IH] using module_ind'.
  intros o w. rewrite _get_layers_eq, leaves_eq. cbn [children].
  revert o. induction IH as [|c cs Hc _ IHcs]; intros o.
  - simpl. rewrite app_nil_r. by destruct o.
  - rewrite for_each_cons, bind_unfold. cbn [flat_map].
    rewrite rejected_app, accepted_app. unfold get_layers_body at 1.
    destruct (children c) as [|c1 ccs] eqn:Ech.
    + replace (rejected [c]) with (isinstance_Sigmoid_Tanh c)
        by (unfold rejected; simpl; by rewrite orb_false_r).
      cbn [accepted].
      destruct (isinstance_Sigmoid_Tanh c) eqn:Eb; cbn.
      * rewrite app_nil_r. by destruct o.
      * rewrite IHcs. cbn. by rewrite <- app_assoc.
    + rewrite Hc. destruct (rejected (leaves c)) eqn:Er; cbn; [reflexivity|].
      rewrite IHcs. cbn. rewrite (accepted_all _ Er). by rewrite <- app_assoc.
Qed.

End Traversal.

(** ** The deep copy *)

Section DeepCopy.
Context {TL : TensorLib} {RT : Runtime}.

Lemma deepcopy_eq l k cs w :
  deepcopy (Module l k cs) w
  = let '(l', w1) := copy_object l w in
    let '(cs', w2) := deepcopy_children cs w1 in
    (Module l' k cs', w2).
Proof. reflexivity. Qed.

Lemma deepcopy_children_cons c cs w :
  deepcopy_children (c :: cs) w
  = let '(c', w') := deepcopy c w in
    let '(cs', w'') := deepcopy_children cs w' in
    (c' :: cs', w'').
Proof. reflexivity. Qed.

Lemma copy_extends_refl w : copy_extends w w.
Proof. split; eauto. Qed.

Lemma copy_extends_trans w1 w2 w3 :
  copy_extends w1 w2 → copy_extends w2 w3 → copy_extends w1 w3.
Proof.
  intros [] []. split; try congruence; try lia.
  - intros l Hl. rewrite ce_attrs1 by lia. auto.
  - intros l Hl. rewrite ce_hooks1 by lia. auto.
  - intros l e He. destruct (ce_entries1 _ _ He) as [l0 H0]. eauto.
Qed.

Lemma copy_object_extends l w :
  copy_extends w (copy_object l w).2 ∧ (copy_object l w).1 = next_loc w
  ∧ next_loc (copy_object l w).2 = S (next_loc w).
Proof.
  split; [|split; reflexivity].
  unfold copy_object; split; cbn; try reflexivity; try lia.
  - intros l0 Hl0. destruct (attrs w !! l); [|reflexivity].
    apply lookup_insert_ne. lia.
  - intros l0 Hl0. destruct (hooks w !! l); [|reflexivity].
    apply lookup_insert_ne. lia.
  - intros l0 e. unfold hooks_of; cbn.
    destruct (hooks w !! l) as [h|] eqn:Eh; [|eauto].
    destruct (decide (l0 = next_loc w)) as [->|Hne].
    + rewrite lookup_insert_eq. cbn. intros He. exists l. by rewrite Eh.
    + rewrite lookup_insert_ne by done. eauto.
Qed.

(** A copy has the classes and the shape of the model, at locations that
    did not exist before. *)
Lemma deepcopy_spec m : ∀ w,
  copy_extends w (deepcopy m w).2
  ∧ Forall (λ l, next_loc w ≤ l < next_loc (deepcopy m w).2) (locs (deepcopy m w).1)
  ∧ kind <$> leaves (deepcopy m w).1 = kind <$> leaves m
  ∧ (children (deepcopy m w).1 = [] ↔ children m = [])
  ∧ kind (deepcopy m w).1 = kind m.
Proof.
  induction m as [l k cs IH] using module_ind'. intros w.
  rewrite deepcopy_eq.
  destruct (copy_object_extends l w) as (Hext & Hl & Hn).
  destruct (copy_object l w) as [l' w1]. cbn in Hext, Hl, Hn. subst l'.
  assert (copy_extends w1 (deepcopy_children cs w1).2
    ∧ Forall (λ l, next_loc w1 ≤ l < next_loc (deepcopy_children cs w1).2)
        (flat_map locs (deepcopy_children cs w1).1)
    ∧ kind <$> flat_map (λ c, match children c with [] => [c] | _ :: _ => leaves c end)
                 (deepcopy_children cs w1).1
      = kind <$> flat_map (λ c, match children c with [] => [c] | _ :: _ => leaves c end) cs
    ∧ ((deepcopy_children cs w1).1 = [] ↔ cs = [])) as (H1 & H2 & H3 & H4).
  { clear Hext Hn. revert w1. induction IH as [|c cs Hc _ IHcs]; intros w1.
    - cbn. split; [apply copy_extends_refl|]. split; [constructor|]. done.
    - rewrite deepcopy_children_cons.
      destruct (Hc w1) as (Hc1 & Hc2 & Hc3 & Hc4 & Hc5).
      destruct (deepcopy c w1) as [c' w2]. cbn in Hc1, Hc2, Hc3, Hc4, Hc5.
      destruct (IHcs w2) as (Hr1 & Hr2 & Hr3 & Hr4).
      destruct (deepcopy_children cs w2) as [cs' w3]. cbn in Hr1, Hr2, Hr3, Hr4. cbn.
      pose proof (ce_next _ _ Hc1). pose proof (ce_next _ _ Hr1).
      split; [eapply copy_extends_trans; eassumption|].
      split; [|split; [|done]].
      + apply Forall_app. split.
        * eapply Forall_impl; [exact Hc2|]. cbn. intros; lia.
        * eapply Forall_impl; [exact Hr2|]. cbn. intros; lia.
      + rewrite !fmap_app, Hr3. f_equal.
        destruct (children c') as [|x xs] eqn:E1, (children c) as [|y ys] eqn:E2.
        * cbn. by rewrite Hc5.
        * destruct Hc4 as [Hx _]. by specialize (Hx eq_refl).
        * destruct Hc4 as [_ Hx]. by specialize (Hx eq_refl).
        * exact Hc3. }
  destruct (deepcopy_children cs w1) as [cs' w2]. cbn in H1, H2, H3, H4. cbn.
  pose proof (ce_next _ _ H1).
  split; [eapply copy_extends_trans; eassumption|].
  split; [|done].
  constructor; [lia|]. eapply Forall_impl; [exact H2|]. cbn. intros; lia.
Qed.

Lemma deepcopy_rejected m w :
  rejected (leaves (deepcopy m w).1) = rejected (leaves m).
Proof.
  destruct (deepcopy_spec m w) as (_ & _ & Hk & _).
  revert Hk. generalize (leaves (deepcopy m w).1) (leaves m).
  induction l as [|a l IH]; intros [|b l'] Hk; try discriminate; [reflexivity|].
  injection Hk as Hab Hk. unfold rejected in *. cbn. rewrite (IH _ Hk).
  unfold isinstance_Sigmoid_Tanh. by rewrite Hab.
Qed.

Lemma deepcopy_leaves_length m w :
  length (leaves (deepcopy m w).1) = length (leaves m).
Proof.
  destruct (deepcopy_spec m w) as (_ & _ & Hk & _).
  apply (f_equal length) in Hk. by rewrite !length_fmap in Hk.
Qed.

(** The leaf layers of a model are module objects of that model. *)
Lemma leaves_locs m : Forall (λ c, ident c ∈ locs m) (leaves m).
Proof.
  induction m as [l k cs IH] using module_ind'. cbn.
  eapply Forall_impl with (P := λ c, ident c ∈ flat_map locs cs);
    [|intros x Hx; by right].
  induction IH as [|c cs Hc _ IHcs]; cbn; [constructor|].
  apply Forall_app. split.
  - destruct c as [lc kc [|c1 ccs]].
    + constructor; [|constructor]. cbn. by left.
    + eapply Forall_impl; [exact Hc|]. cbn -[locs]. intros x Hx.
      apply elem_of_app. by left.
  - eapply Forall_impl; [exact IHcs|]. cbn. intros x Hx.
    apply elem_of_app. by right.
Qed.

End DeepCopy.

(** ** The start of [attribute] *)

Section Setup.
Context {TL : TensorLib} {RT : Runtime}.

Lemma attribute_setup inputs tgt rcd args all verb o (w : world) :
  attribute inputs tgt rcd args all verb (o, w)
  = if rejected (leaves (model o)) then
      (Err (TypeError get_layers_msg),
       (engine_stopped (deepcopy (model o) w).1 o, (deepcopy (model o) w).2))
    else
      attribute_after_setup inputs tgt rcd args
        (engine_on (deepcopy (model o) w).1 o all verb, (deepcopy (model o) w).2).
Proof.
  unfold attribute. rewrite <- (deepcopy_rejected (model o) w).
  do 3 (rewrite bind_unfold; cbn -[deepcopy _get_layers mbind M_bind]).
  destruct (deepcopy (model o) w) as [m' w0] eqn:Ed.
  repeat (rewrite bind_unfold; cbn -[deepcopy _get_layers mbind M_bind]).
  rewrite Ed. cbn -[_get_layers mbind M_bind].
  repeat (rewrite bind_unfold; cbn -[_get_layers mbind M_bind]).
  rewrite _get_layers_spec. cbn -[mbind M_bind]. unfold rejected.
  destruct (existsb isinstance_Sigmoid_Tanh (leaves m')) eqn:Er; [reflexivity|].
  rewrite (accepted_all _ Er). reflexivity.
Qed.

End Setup.

(** ** Rejection of sigmoid and tanh *)

Section Rejection.
Context {TL : TensorLib} {RT : Runtime}.

Lemma rejected_Exists ls :
  Exists (λ l, kind l = Sigmoid ∨ kind l = Tanh) ls → rejected ls = true.
Proof.
  unfold rejected, isinstance_Sigmoid_Tanh.
  induction 1 as [l ls [Hl|Hl]|l ls _ IH]; cbn.
  - by rewrite Hl.
  - by rewrite Hl.
  - rewrite IH. apply orb_true_r.
Qed.

Lemma LRP___init___rejected m rs (w : world) :
  rejected (leaves m) = true →
  LRP___init__ [ArgModule m; ArgRules rs] w = (Err (TypeError get_layers_msg), w).
Proof.
  intros Hr. unfold LRP___init__.
  repeat (rewrite bind_unfold; cbn -[_get_layers mbind M_bind]).
  rewrite _get_layers_spec, Hr. reflexivity.
Qed.

(** C5. A model with a sigmoid or tanh among its leaf layers is rejected:
    the constructor raises the type error of the traversal and leaves the
    store as it is; [attribute], on an engine whose model has such a leaf,
    raises the same error right after the deep copy, so that the store is
    the one the copy produced: no hook entry that was not there, no handle
    created, the runtime state untouched. *)
Theorem sigmoid_tanh_rejected (m : module) :
  Exists (λ l, kind l = Sigmoid ∨ kind l = Tanh) (leaves m) →
  (∀ rs (w : world),
     LRP___init__ [ArgModule m; ArgRules rs] w = (Err (TypeError get_layers_msg), w))
  ∧ (∀ o (w : world) inputs tgt rcd args all verb,
       model o = m →
       let r := attribute inputs tgt rcd args all verb (o, w) in
       r.1 = Err (TypeError get_layers_msg)
       ∧ r.2.2 = (deepcopy m w).2
       ∧ copy_extends w r.2.2).
Proof.
  intros Hbad. apply rejected_Exists in Hbad. split.
  - intros rs w. by apply LRP___init___rejected.
  - intros o w inputs tgt rcd args all verb <-. cbn zeta.
    rewrite attribute_setup, Hbad. cbn.
    split; [reflexivity|]. split; [reflexivity|]. apply deepcopy_spec.
Qed.

End Rejection.

Lemma sigmoid_tanh_rejected_witness :
  LRP___init__ [ArgModule toy_sigmoid_net; ArgRules [RuleNone; RuleNone]] toy_world
  = (Err (TypeError get_layers_msg), toy_world).
Proof.
  apply (sigmoid_tanh_rejected toy_sigmoid_net).
  cbn. right. left. by left.
Defined.

(** ** The rule registry *)

Section Registry.
Context {TL : TensorLib} {RT : Runtime}.

(** C8. The registry of redistribution rules has exactly six entries:
    convolution and linear layers get the Alpha1-Beta0 rule, the three
    poolings and batch normalization the epsilon rule, every other class
    none; the only pass-through class is the rectifier.  In the
    registration loop a layer of the registry gets a new instance of its
    rule class, whose [forward_hook] is registered (and whose
    [_backward_hook_relevance] when all layers are asked for), while a
    rectifier gets no rule and no forward hook: only a backward hook that
    relays the signal, bound to the rule at hand. *)
Theorem rule_registry (k : layer_kind) :
  dict_get SUPPORTED_LINEAR_LAYERS k
  = match k with
    | Conv2d | Linear => Some Alpha1_Beta0_Rule
    | MaxPool2d | AvgPool2d | AdaptiveAvgPool2d | BatchNorm2d => Some EpsilonRule
    | ReLU | Sigmoid | Tanh | OtherModule _ => None
    end
  ∧ (k ∈ SUPPORTED_NON_LINEAR_LAYERS ↔ k = ReLU)
  ∧ (∀ layer cls rule rest (s : state),
       kind layer = k → dict_get SUPPORTED_LINEAR_LAYERS k = Some cls →
       _register_forward_hooks_from rule (layer :: rest) s
       = (rule' ← new_rule cls;
          forward_handle ← register_hook layer ForwardHook (bound forward_hook rule');
          assign (λ o, set_forward_handles (forward_handles o ++ [forward_handle]) o);;
          (if return_for_all_layers s.1 then
             relevance_handle ←
               register_hook layer BackwardHook (bound _backward_hook_relevance rule');
             assign (λ o, set_backward_handles (backward_handles o ++ [relevance_handle]) o)
           else ret tt);;
          _register_forward_hooks_from (Some rule') rest) s)
  ∧ (∀ layer r rest (s : state),
       kind layer = k → k = ReLU →
       _register_forward_hooks_from (Some r) (layer :: rest) s
       = (backward_handle ←
            register_hook layer BackwardHook (bound backward_hook_activation r);
          assign (λ o, set_backward_handles (backward_handles o ++ [backward_handle]) o);;
          _register_forward_hooks_from (Some r) rest) s).
Proof.
  split; [by destruct k|]. split; [|split].
  - unfold SUPPORTED_NON_LINEAR_LAYERS. rewrite list_elem_of_singleton. done.
  - intros layer cls rule rest [o w] Hk Hcls. cbn [_register_forward_hooks_from].
    rewrite Hk, Hcls. reflexivity.
  - intros layer r rest s Hk ->. cbn [_register_forward_hooks_from].
    rewrite Hk. reflexivity.
Qed.

End Registry.

Lemma rule_registry_witness :
  hooks_of
    (_register_forward_hooks_from
       (Some {| ri_id := 0; ri_class := Alpha1_Beta0_Rule |})
       [Module 2 ReLU []] (toy_lrp, toy_world)).2.2 2
  = [ {| he_id := 0; he_slot := BackwardHook;
         he_cb := bound backward_hook_activation
                    {| ri_id := 0; ri_class := Alpha1_Beta0_Rule |} |} ].
Proof.
  rewrite (proj2 (proj2 (proj2 (rule_registry ReLU))) (Module 2 ReLU []) _ [] _
             eq_refl eq_refl).
  vm_compute. reflexivity.
Defined.

(** ** Construction of the layer-scoped variant *)

(** C4. [LayerLRP.__init__] calls [LRP.__init__] with the model alone, and
    [LRP.__init__] requires the rules as well: the construction raises a
    type error for every model and layer, before any attribute of the
    object is set, so that no [LayerLRP] object exists whose [attribute]
    could return the relevance of a layer. *)
Theorem LayerLRP_construction_fails {TL : TensorLib} {RT : Runtime} (m l : module) (w : world) :
  LayerLRP___init__ m l w
  = (Err (TypeError "__init__() missing required positional argument"), w).
Proof. reflexivity. Qed.

(** ** Properties kept by computations *)

Lemma preserves_bind {S A B} (P : S → Prop) (c : M S A) (k : A → M S B) :
  preserves P c → (∀ a, preserves P (k a)) → preserves P (c ≫= k).
Proof.
  intros Hc Hk s Hs. rewrite bind_unfold. specialize (Hc s Hs).
  destruct (c s) as [[a|e] s1]; [by apply Hk | exact Hc].
Qed.

Lemma preserves_assoc {S A B C} (P : S → Prop)
    (c : M S A) (f : A → M S B) (k : B → M S C) :
  preserves P ((c ≫= f) ≫= k) → preserves P (c ≫= λ a, f a ≫= k).
Proof.
  intros H s Hs. specialize (H s Hs). rewrite !bind_unfold in *.
  destruct (c s) as [[a|e] s1]; [|exact H]. by rewrite bind_unfold.
Qed.

Lemma preserves_ret {S A} (P : S → Prop) (a : A) : preserves P (mret a : M S A).
Proof. by intros s Hs. Qed.

Lemma preserves_raise {S A} (P : S → Prop) e : preserves P (raise e : M S A).
Proof. by intros s Hs. Qed.

Lemma preserves_lift_result {S A} (P : S → Prop) (r : result A) :
  preserves P (lift_result r : M S A).
Proof. by intros s Hs. Qed.

Lemma preserves_gets {S A} (P : S → Prop) (f : S → A) : preserves P (gets f).
Proof. by intros s Hs. Qed.

Lemma preserves_for_each {S X} (P : S → Prop) (body : X → M S unit) xs :
  (∀ x, x ∈ xs → preserves P (body x)) → preserves P (for_each body xs).
Proof. intros H s Hs. apply for_each_preserves; [|exact Hs]. intros x s' Hx. by apply H. Qed.

(** A read of the state may be used by what follows. *)
Lemma preserves_read {S A B} (P : S → Prop) (f : S → A) (k : A → M S B) :
  (∀ s, P s → P (k (f s) s).2) → preserves P (gets f ≫= k).
Proof. intros H s Hs. by apply H. Qed.

Lemma preserves_then {S A B} (P : S → Prop) (c : M S A) (k : A → M S B) s :
  P (c s).2 → (∀ a, preserves P (k a)) → P ((c ≫= k) s).2.
Proof.
  intros Hc Hk. rewrite bind_unfold.
  destruct (c s) as [[a|e] s1]; [by apply Hk | exact Hc].
Qed.

Lemma preserves_eq {S A} (P : S → Prop) (c : M S A) s r s' :
  preserves P c → P s → c s = (r, s') → P s'.
Proof. intros Hc Hs Heq. specialize (Hc s Hs). by rewrite Heq in Hc. Qed.

Lemma lift_result_Ok_inv {S A} (r : result A) (s s' : S) a :
  lift_result r s = (Ok a, s') → r = Ok a ∧ s' = s.
Proof. unfold lift_result. by intros [= -> ->]. Qed.

Ltac preserves_split leaf :=
  repeat first
    [ leaf
    | apply preserves_ret
    | apply preserves_raise
    | apply preserves_lift_result
    | apply preserves_gets
    | apply preserves_bind; [|intro]
    | match goal with
      | |- preserves _ (if ?b then _ else _) => destruct b
      | |- preserves _ (match ?x with _ => _ end) => destruct x
      end ].

(** ** What the primitives change *)

Section Primitives.
Context {TL : TensorLib} {RT : Runtime}.

Lemma hooks_of_register layer slot cb (s : state) l :
  hooks_of (register_hook layer slot cb s).2.2 l
  = if decide (l = ident layer)
    then hooks_of s.2 l ++ [{| he_id := next_handle s.2; he_slot := slot; he_cb := cb |}]
    else hooks_of s.2 l.
Proof.
  unfold hooks_of at 1. cbn. case_decide as Hl.
  - subst l. by rewrite lookup_insert_eq.
  - by rewrite lookup_insert_ne.
Qed.

Lemma hooks_of_remove_handle h (w : world) l e :
  e ∈ hooks_of (remove_handle h w) l ↔
  e ∈ hooks_of w l ∧ h ≠ ModuleHandle l (he_id e).
Proof.
  destruct h as [l0 id|id]; cbn; [|by intuition].
  unfold hooks_of; cbn. destruct (decide (l = l0)) as [->|Hne].
  - rewrite lookup_alter_eq. destruct (hooks w !! l0) as [h|]; cbn.
    + rewrite list_elem_of_filter. split.
      * intros [Hid He]. split; [done|]. congruence.
      * intros [He Hid]. split; [|done]. congruence.
    + split; [intros He | intros [He _]]; by apply not_elem_of_nil in He.
  - rewrite lookup_alter_ne by done. split; [|by intros [? _]].
    intros He. split; [done|]. congruence.
Qed.

Lemma run_forward_eq xs t a (s : state) :
  run_forward xs t a s
  = let r := _run_forward (hooks s.2) (model s.1) xs t a (attrs s.2, rt s.2) in
    (r.1, (s.1, set_attrs_rt r.2.1 r.2.2 s.2)).
Proof.
  unfold run_forward. by destruct (_run_forward _ _ _ _ _ _) as [r [a' t']].
Qed.

Lemma run_compute_gradients_eq xs t a (s : state) :
  run_compute_gradients xs t a s
  = let r := compute_gradients (hooks s.2) (model s.1) xs t a (attrs s.2, rt s.2) in
    (r.1, (s.1, set_attrs_rt r.2.1 r.2.2 s.2)).
Proof.
  unfold run_compute_gradients. by destruct (compute_gradients _ _ _ _ _ _) as [r [a' t']].
Qed.

Lemma run_apply_gradient_requirements_eq xs (s : state) :
  run_apply_gradient_requirements xs s
  = let r := apply_gradient_requirements xs (rt s.2) in
    (Ok r.1, (s.1, set_rt r.2 s.2)).
Proof.
  unfold run_apply_gradient_requirements.
  by destruct (apply_gradient_requirements _ _) as [m t'].
Qed.

(** A loop of removals ends, leaves the engine object alone, and leaves
    the entries that were there and whose handle is not in the list. *)
Lemma remove_all_spec hs : ∀ s : state,
  ∃ s', for_each handle_remove hs s = (Ok tt, s')
    ∧ s'.1 = s.1
    ∧ (attrs s'.2 = attrs s.2)
    ∧ ∀ l e, e ∈ hooks_of s'.2 l ↔
             e ∈ hooks_of s.2 l ∧ ModuleHandle l (he_id e) ∉ hs.
Proof.
  induction hs as [|h hs IH]; intros s.
  - exists s. cbn. split; [done|]. split; [done|]. split; [done|].
    intros l e. split; [|by intros [? _]]. intros He. split; [done|]. apply not_elem_of_nil.
  - rewrite for_each_cons, bind_unfold. cbn -[for_each].
    destruct (IH (s.1, remove_handle h s.2)) as (s' & Hrun & Hself & Hattrs & Hent).
    exists s'. split; [exact Hrun|]. split; [exact Hself|]. split.
    + rewrite Hattrs. cbn. by destruct h.
    + intros l e. rewrite Hent. cbn. rewrite hooks_of_remove_handle, not_elem_of_cons.
      intuition congruence.
Qed.

End Primitives.

(** ** The engine works on its copy *)

Section Frame.
Context {TL : TensorLib} {RT : Runtime} {LH : LayerHelpers}.

(** The runtime changes no module object outside the model it runs. *)
Hypothesis forward_frame : ∀ hk m xs t a st l,
  l ∉ locs m → (_run_forward hk m xs t a st).2.1 !! l = st.1 !! l.
Hypothesis gradients_frame : ∀ hk m xs t a st l,
  l ∉ locs m → (compute_gradients hk m xs t a st).2.1 !! l = st.1 !! l.

Variable L : list loc.
Variable w0 : world.

Lemma safe_register_forward layer slot cb :
  ident layer ∉ L →
  preserves (safe L w0)
    (register_hook layer slot cb ≫= λ h,
       assign (λ o, set_forward_handles (forward_handles o ++ [h]) o)).
Proof.
  intros Hl [o w] [Hu Hm Hls Hf Hb Hr].
  unfold mbind, M_bind, bind. split; cbn -[ident] in *; try done.
  - intros l Hin. cbn -[ident]. destruct (Hu l Hin) as [Ha Hh]. split; [done|].
    rewrite lookup_insert_ne; [done|]. by intros <-.
  - apply Forall_app. split; [done|]. by constructor.
Qed.

Lemma safe_register_backward layer slot cb :
  ident layer ∉ L →
  preserves (safe L w0)
    (register_hook layer slot cb ≫= λ h,
       assign (λ o, set_backward_handles (backward_handles o ++ [h]) o)).
Proof.
  intros Hl [o w] [Hu Hm Hls Hf Hb Hr].
  unfold mbind, M_bind, bind. split; cbn -[ident] in *; try done.
  - intros l Hin. cbn -[ident]. destruct (Hu l Hin) as [Ha Hh]. split; [done|].
    rewrite lookup_insert_ne; [done|]. by intros <-.
  - apply Forall_app. split; [done|]. by constructor.
Qed.

Lemma safe_handle_remove h :
  handle_off L h → preserves (safe L w0) (handle_remove h).
Proof.
  intros Hh [o w] [Hu Hm Hls Hf Hb Hr]. split; cbn in *; try done.
  intros l Hin. cbn. destruct (Hu l Hin) as [Ha Hk].
  destruct h as [l0 id|id]; cbn in *; [|done]. split; [done|].
  rewrite lookup_alter_ne; [done|]. by intros <-.
Qed.

Lemma safe_new_rule cls : preserves (safe L w0) (new_rule cls).
Proof. by intros [o w] []. Qed.

Lemma safe_print_no_rule k : preserves (safe L w0) (print_no_rule k).
Proof. by intros [o w] []. Qed.

Lemma safe_run_forward xs t a : preserves (safe L w0) (run_forward xs t a).
Proof.
  intros [o w] [Hu Hm Hls Hf Hb Hr]. rewrite run_forward_eq.
  split; cbn in *; try done.
  intros l Hin. cbn. destruct (Hu l Hin) as [Ha Hk]. split; [|done].
  rewrite forward_frame; [done|]. rewrite Forall_forall in Hm.
  intros Hx. by apply (Hm _ Hx).
Qed.

Lemma safe_run_compute_gradients xs t a :
  preserves (safe L w0) (run_compute_gradients xs t a).
Proof.
  intros [o w] [Hu Hm Hls Hf Hb Hr]. rewrite run_compute_gradients_eq.
  split; cbn in *; try done.
  intros l Hin. cbn. destruct (Hu l Hin) as [Ha Hk]. split; [|done].
  rewrite gradients_frame; [done|]. rewrite Forall_forall in Hm.
  intros Hx. by apply (Hm _ Hx).
Qed.

Lemma safe_run_apply_gradient_requirements xs :
  preserves (safe L w0) (run_apply_gradient_requirements xs).
Proof.
  intros [o w] []. rewrite run_apply_gradient_requirements_eq. by split.
Qed.

Lemma safe_run_undo_gradient_requirements xs mask :
  preserves (safe L w0) (run_undo_gradient_requirements xs mask).
Proof. by intros [o w] []. Qed.

Ltac safe_leaf :=
  first [ apply safe_new_rule
        | apply safe_print_no_rule
        | apply safe_run_forward
        | apply safe_run_compute_gradients
        | apply safe_run_apply_gradient_requirements
        | apply safe_run_undo_gradient_requirements
        | apply safe_register_forward; assumption
        | apply safe_register_backward; assumption
        | apply safe_handle_remove; assumption ].

(** A loop over the layers of the engine, or over its handles. *)
Lemma safe_over_layers {A} (k : list module → M state A) :
  (∀ ls, Forall (λ c, ident c ∉ L) ls → preserves (safe L w0) (k ls)) →
  preserves (safe L w0) (self_ layers ≫= k).
Proof.
  intros Hk. unfold self_. apply preserves_read. intros s Hs.
  apply Hk; [apply Hs | exact Hs].
Qed.

Lemma safe__register_weight_hooks : preserves (safe L w0) _register_weight_hooks.
Proof.
  apply safe_over_layers. intros ls Hls. apply preserves_for_each.
  intros layer Hin. rewrite Forall_forall in Hls. specialize (Hls _ Hin).
  preserves_split safe_leaf.
Qed.

Lemma safe__register_pre_hooks : preserves (safe L w0) _register_pre_hooks.
Proof.
  apply safe_over_layers. intros ls Hls. apply preserves_for_each.
  intros layer Hin. rewrite Forall_forall in Hls. specialize (Hls _ Hin).
  preserves_split safe_leaf.
Qed.

Lemma safe__register_forward_hooks_from ls : ∀ rule,
  Forall (λ c, ident c ∉ L) ls →
  preserves (safe L w0) (_register_forward_hooks_from rule ls).
Proof.
  induction ls as [|layer ls IH]; intros rule Hls; cbn [_register_forward_hooks_from].
  - apply preserves_ret.
  - apply Forall_cons in Hls as [Hl Hls].
    destruct (dict_get SUPPORTED_LINEAR_LAYERS (kind layer)) as [cls|].
    + apply preserves_bind; [apply safe_new_rule|]. intros rule'.
      apply preserves_assoc. apply preserves_bind; [by apply safe_register_forward|].
      intros _. preserves_split safe_leaf. by apply IH.
    + case_bool_decide.
      * destruct rule as [r|]; [|apply preserves_raise].
        apply preserves_assoc. apply preserves_bind; [by apply safe_register_backward|].
        intros _. by apply IH.
      * apply preserves_bind; [apply safe_print_no_rule|]. intros _. by apply IH.
Qed.

Lemma safe__register_forward_hooks : preserves (safe L w0) _register_forward_hooks.
Proof. apply safe_over_layers. intros ls Hls. by apply safe__register_forward_hooks_from. Qed.

Lemma safe_remove_all hs :
  Forall (handle_off L) hs → preserves (safe L w0) (for_each handle_remove hs).
Proof.
  intros Hhs. apply preserves_for_each. intros h Hin.
  rewrite Forall_forall in Hhs. by apply safe_handle_remove, Hhs.
Qed.

Lemma safe__remove_forward_hooks : preserves (safe L w0) _remove_forward_hooks.
Proof.
  unfold _remove_forward_hooks, self_. apply preserves_read. intros s Hs.
  apply safe_remove_all; [apply Hs | exact Hs].
Qed.

Lemma safe_remove_if_present h :
  (∀ x, h = Some x → handle_off L x) →
  preserves (safe L w0) (remove_if_present h).
Proof.
  destruct h as [h|]; cbn; [|intros _; apply preserves_ret].
  intros Hh. apply safe_handle_remove. by apply Hh.
Qed.

Lemma safe__remove_backward_hooks : preserves (safe L w0) _remove_backward_hooks.
Proof.
  unfold _remove_backward_hooks, self_. apply preserves_read. intros s Hs.
  apply preserves_then; [apply safe_remove_all; [apply Hs | exact Hs]|].
  intros _. apply preserves_read. intros s1 Hs1.
  apply preserves_for_each; [|exact Hs1]. intros rule Hin.
  pose proof (safe_rules _ _ _ Hs1) as Hr. rewrite Forall_forall in Hr.
  specialize (Hr _ Hin). destruct rule as [|u|]; try apply preserves_ret.
  assert (∀ x, x ∈ rule_handles (RuleObj u) → handle_off L x) as Hoff
    by by apply Forall_forall.
  destruct u as [cls hi ho hl]; cbn in *.
  apply preserves_bind; [|intros _; apply preserves_bind; [|intros _]];
    apply safe_remove_if_present; intros x ->; apply Hoff;
    try destruct hi; try destruct ho; try destruct hl; cbn; set_solver.
Qed.

Lemma safe__change_weights xs : preserves (safe L w0) (_change_weights xs).
Proof.
  unfold _change_weights.
  preserves_split ltac:(first [ apply safe__register_weight_hooks
                              | apply safe__register_pre_hooks
                              | apply safe__remove_forward_hooks
                              | safe_leaf ]).
Qed.

Lemma safe__select_layer_output rels :
  preserves (safe L w0) (_select_layer_output rels).
Proof. unfold _select_layer_output. preserves_split fail. Qed.

Lemma safe_compute_convergence_delta v xs a t :
  preserves (safe L w0) (compute_convergence_delta v xs a t).
Proof. unfold compute_convergence_delta. preserves_split safe_leaf. Qed.

Lemma safe_attribute_after_setup inputs tgt rcd args :
  preserves (safe L w0) (attribute_after_setup inputs tgt rcd args).
Proof.
  unfold attribute_after_setup.
  preserves_split ltac:(first [ apply safe__change_weights
                              | apply safe__register_forward_hooks
                              | apply safe__remove_backward_hooks
                              | apply safe__remove_forward_hooks
                              | apply safe__select_layer_output
                              | apply safe_compute_convergence_delta
                              | safe_leaf ]).
Qed.

(** The objects of [L] exist in [w0]. *)
Hypothesis allocated : ∀ l, l ∈ L → l < next_loc w0.

Lemma unchanged_after_copy m : unchanged_on L w0 (deepcopy m w0).2.
Proof.
  destruct (deepcopy_spec m w0) as ([] & _). intros l Hl. auto.
Qed.

Lemma copy_off m : Forall (λ l, l ∉ L) (locs (deepcopy m w0).1).
Proof.
  destruct (deepcopy_spec m w0) as (_ & Hl & _).
  eapply Forall_impl; [exact Hl|]. cbn. intros l Hl' Hin.
  apply allocated in Hin. lia.
Qed.

Lemma copy_leaves_off m : Forall (λ c, ident c ∉ L) (leaves (deepcopy m w0).1).
Proof.
  pose proof (copy_off m) as Hoff. rewrite Forall_forall in Hoff.
  eapply Forall_impl; [apply leaves_locs|]. cbn. intros c Hc. by apply Hoff.
Qed.

Lemma base_unchanged o inputs tgt rcd args all verb :
  Forall (λ r, Forall (handle_off L) (rule_handles r)) (rules o) →
  unchanged_on L w0 (attribute inputs tgt rcd args all verb (o, w0)).2.2.
Proof.
  intros Hrules. rewrite attribute_setup.
  destruct (rejected (leaves (model o))); [apply unchanged_after_copy|].
  apply safe_attribute_after_setup. split; cbn.
  - apply unchanged_after_copy.
  - apply copy_off.
  - apply copy_leaves_off.
  - constructor.
  - constructor.
  - exact Hrules.
Qed.

(** The methods of [LayerLRP] that these sources do not define keep the
    engine away from [L]. *)
Hypothesis _get_rules_safe : preserves (lsafe L w0) _get_rules.
Hypothesis _check_if_weights_are_changed_safe :
  preserves (lsafe L w0) _check_if_weights_are_changed.
Hypothesis _remove_rules_safe : preserves (lsafe L w0) _remove_rules.

Lemma lsafe_inherited {A} (c : M state A) :
  preserves (safe L w0) c → preserves (lsafe L w0) (inherited c).
Proof.
  intros Hc [lo w] Hs. unfold inherited, lsafe in *. cbn in *.
  specialize (Hc _ Hs). by destruct (c (base lo, w)) as [r [o' w']].
Qed.

Lemma lsafe_assign_handles f :
  (∀ o, model (f o) = model o ∧ layers (f o) = layers o ∧ rules (f o) = rules o
        ∧ (forward_handles (f o) = [] ∨ forward_handles (f o) = forward_handles o)
        ∧ (backward_handles (f o) = [] ∨ backward_handles (f o) = backward_handles o)) →
  preserves (lsafe L w0) (inherited (assign f)).
Proof.
  intros Hf. apply lsafe_inherited. intros [o w] [Hu Hm Hls Hfh Hbh Hr].
  destruct (Hf o) as (Hmo & Hla & Hru & Hfw & Hbw).
  split; cbn in *; rewrite ?Hmo, ?Hla, ?Hru; try done.
  - destruct Hfw as [-> | ->]; [constructor | done].
  - destruct Hbw as [-> | ->]; [constructor | done].
Qed.

Lemma LayerLRP_setup xs tgt args all verb lo (w : world) :
  LayerLRP_attribute_relevances xs tgt args all verb (lo, w)
  = match original_model lo with
    | None =>
        (Err (AttributeError "original_model"),
         (with_base (set_verbose verb (base lo)) lo, w))
    | Some m =>
        if rejected (leaves m) then
          (Err (TypeError get_layers_msg),
           (with_base (set_layers (accepted (leaves (deepcopy m w).1))
                        (set_model (deepcopy m w).1 (set_verbose verb (base lo)))) lo,
            (deepcopy m w).2))
        else
          LayerLRP_after_setup xs tgt args all
            (with_base (set_layers (leaves (deepcopy m w).1)
                         (set_model (deepcopy m w).1 (set_verbose verb (base lo)))) lo,
             (deepcopy m w).2)
    end.
Proof.
  unfold LayerLRP_attribute_relevances, with_base.
  repeat (rewrite bind_unfold; cbn -[deepcopy _get_layers mbind M_bind]).
  destruct (original_model lo) as [m|] eqn:Eo; [|reflexivity].
  rewrite <- (deepcopy_rejected m w). unfold ret.
  repeat (rewrite bind_unfold; cbn -[deepcopy _get_layers mbind M_bind]).
  destruct (deepcopy m w) as [m' w'] eqn:Ed.
  repeat (rewrite bind_unfold; cbn -[_get_layers mbind M_bind]).
  unfold inherited at 1. cbn -[_get_layers mbind M_bind].
  rewrite bind_unfold. cbn -[_get_layers mbind M_bind].
  rewrite _get_layers_spec. cbn -[mbind M_bind]. unfold rejected.
  destruct (existsb isinstance_Sigmoid_Tanh (leaves m')) eqn:Er; [reflexivity|].
  rewrite (accepted_all _ Er). reflexivity.
Qed.

Lemma lsafe_after_setup xs tgt args all :
  preserves (lsafe L w0) (LayerLRP_after_setup xs tgt args all).
Proof.
  unfold LayerLRP_after_setup.
  preserves_split ltac:(first
    [ exact _get_rules_safe
    | exact _check_if_weights_are_changed_safe
    | apply lsafe_assign_handles; intros o; cbn; by eauto 10
    | apply lsafe_inherited;
      first [ apply safe__change_weights
            | apply safe__register_forward_hooks
            | safe_leaf ] ]).
Qed.

Lemma accepted_Forall (P : module → Prop) ls : Forall P ls → Forall P (accepted ls).
Proof.
  induction 1 as [|l ls Hl _ IH]; cbn; [constructor|].
  destruct (isinstance_Sigmoid_Tanh l); by constructor.
Qed.

Lemma lsafe_select_layer_output l :
  preserves (lsafe L w0) (LayerLRP__select_layer_output l).
Proof.
  intros s Hs. unfold LayerLRP__select_layer_output.
  by destruct (layer_relevance s.2 l).
Qed.

Lemma layer_unchanged lo inputs tgt args rcd all verb :
  Forall (handle_off L) (forward_handles (base lo)) →
  Forall (handle_off L) (backward_handles (base lo)) →
  Forall (λ r, Forall (handle_off L) (rule_handles r)) (rules (base lo)) →
  unchanged_on L w0 (LayerLRP_attribute inputs tgt args rcd all verb (lo, w0)).2.2.
Proof.
  intros Hfh Hbh Hrules. unfold LayerLRP_attribute.
  pose proof (LayerLRP_setup (_format_input inputs) tgt args all verb lo w0) as Heq.
  destruct (original_model lo) as [m|] eqn:Eo;
    [|rewrite (bind_Err_intro _ _ _ _ _ Heq); by intros l Hl].
  destruct (rejected (leaves m));
    [rewrite (bind_Err_intro _ _ _ _ _ Heq); apply unchanged_after_copy|].
  rewrite (bind_congr_at _ _ _ _ _ Heq). clear Heq.
  match goal with
  | |- unchanged_on _ _ (?c ?s).2.2 =>
      cut (preserves (lsafe L w0) c ∧ lsafe L w0 s);
        [intros [Hp Hs0]; exact (safe_unchanged _ _ _ (Hp _ Hs0))|]
  end.
  split.
  - preserves_split ltac:(first
      [ apply lsafe_after_setup
      | exact _remove_rules_safe
      | apply lsafe_select_layer_output
      | apply lsafe_inherited;
        first [ apply safe__remove_backward_hooks
              | apply safe__remove_forward_hooks
              | apply safe_compute_convergence_delta
              | safe_leaf ] ]).
  - split; cbn.
    + apply unchanged_after_copy.
    + apply copy_off.
    + apply copy_leaves_off.
    + exact Hfh.
    + exact Hbh.
    + exact Hrules.
Qed.

End Frame.

Section OriginalModel.
Context {TL : TensorLib} {RT : Runtime} {LH : LayerHelpers}.


End OriginalModel.

Lemma toy_backward_frame hk out ls a l :
  l ∉ ls → toy_backward hk out ls a !! l = a !! l.
Proof.
  induction ls as [|x ls IH]; cbn; [done|].
  rewrite not_elem_of_cons. intros [Hne Hl].
  destruct (has_relevance_hook _); [|by apply IH].
  rewrite lookup_insert_ne by done. by apply IH.
Qed.

Lemma toy_gradients_frame hk m xs t a (st : gmap loc (mattrs unit) * bool) l :
  l ∉ locs m →
  (compute_gradients (Runtime := toy_runtime) hk m xs t a st).2.1 !! l = st.1 !! l.
Proof.
  intros Hl. cbn. destruct (toy_output xs t); [|done].
  destruct st as [at' []]; cbn; [|done]. by apply toy_backward_frame.
Qed.


(** ** The handles of the engine *)

Section Handles.
Context {TL : TensorLib} {RT : Runtime}.

Variable n : nat.

Lemma tracked_register_forward layer slot cb :
  preserves (tracked n)
    (register_hook layer slot cb ≫= λ h,
       assign (λ o, set_forward_handles (forward_handles o ++ [h]) o)).
Proof.
  intros [o w] Ht l e. unfold mbind, M_bind, bind. cbn -[hooks_of ident].
  pose proof (hooks_of_register layer slot cb (o, w) l) as Hreg.
  cbn -[hooks_of ident] in Hreg. rewrite Hreg. clear Hreg.
  case_decide as Hl; [rewrite elem_of_app, list_elem_of_singleton; intros [He | ->]|intros He].
  - destruct (Ht l e He) as [?|Hin]; [by left|right].
    cbn in *. rewrite !elem_of_app in *. tauto.
  - right. subst l. cbn -[ident]. rewrite !elem_of_app, list_elem_of_singleton. tauto.
  - destruct (Ht l e He) as [?|Hin]; [by left|right].
    cbn in *. rewrite !elem_of_app in *. tauto.
Qed.

Lemma tracked_register_backward layer slot cb :
  preserves (tracked n)
    (register_hook layer slot cb ≫= λ h,
       assign (λ o, set_backward_handles (backward_handles o ++ [h]) o)).
Proof.
  intros [o w] Ht l e. unfold mbind, M_bind, bind. cbn -[hooks_of ident].
  pose proof (hooks_of_register layer slot cb (o, w) l) as Hreg.
  cbn -[hooks_of ident] in Hreg. rewrite Hreg. clear Hreg.
  case_decide as Hl; [rewrite elem_of_app, list_elem_of_singleton; intros [He | ->]|intros He].
  - destruct (Ht l e He) as [?|Hin]; [by left|right].
    cbn in *. rewrite !elem_of_app in *. tauto.
  - right. subst l. cbn -[ident]. rewrite !elem_of_app, list_elem_of_singleton. tauto.
  - destruct (Ht l e He) as [?|Hin]; [by left|right].
    cbn in *. rewrite !elem_of_app in *. tauto.
Qed.

Lemma tracked_handle_remove h : preserves (tracked n) (handle_remove h).
Proof.
  intros [o w] Ht l e. cbn -[hooks_of]. rewrite hooks_of_remove_handle.
  intros [He _]. by apply Ht.
Qed.

Lemma tracked_new_rule cls : preserves (tracked n) (new_rule cls).
Proof. by intros [o w] Ht. Qed.

Lemma tracked_print_no_rule k : preserves (tracked n) (print_no_rule k).
Proof. by intros [o w] Ht. Qed.

Lemma tracked_run_forward xs t a : preserves (tracked n) (run_forward xs t a).
Proof. intros [o w] Ht. by rewrite run_forward_eq. Qed.

Lemma tracked_run_compute_gradients xs t a :
  preserves (tracked n) (run_compute_gradients xs t a).
Proof. intros [o w] Ht. by rewrite run_compute_gradients_eq. Qed.

Lemma tracked_run_apply_gradient_requirements xs :
  preserves (tracked n) (run_apply_gradient_requirements xs).
Proof. intros [o w] Ht. by rewrite run_apply_gradient_requirements_eq. Qed.

Ltac tracked_leaf :=
  first [ apply tracked_new_rule
        | apply tracked_print_no_rule
        | apply tracked_run_forward
        | apply tracked_run_compute_gradients
        | apply tracked_run_apply_gradient_requirements
        | apply tracked_register_forward
        | apply tracked_register_backward
        | apply tracked_handle_remove ].

Lemma tracked__register_weight_hooks : preserves (tracked n) _register_weight_hooks.
Proof.
  unfold _register_weight_hooks, self_. apply preserves_read. intros s Hs.
  apply preserves_for_each; [|exact Hs]. intros layer _. preserves_split tracked_leaf.
Qed.

Lemma tracked__register_pre_hooks : preserves (tracked n) _register_pre_hooks.
Proof.
  unfold _register_pre_hooks, self_. apply preserves_read. intros s Hs.
  apply preserves_for_each; [|exact Hs]. intros layer _. preserves_split tracked_leaf.
Qed.

Lemma tracked__remove_forward_hooks : preserves (tracked n) _remove_forward_hooks.
Proof.
  unfold _remove_forward_hooks, self_. apply preserves_read. intros s Hs.
  apply preserves_for_each; [|exact Hs]. intros h _. apply tracked_handle_remove.
Qed.

Lemma tracked__register_forward_hooks_from ls : ∀ rule,
  preserves (tracked n) (_register_forward_hooks_from rule ls).
Proof.
  induction ls as [|layer ls IH]; intros rule; cbn [_register_forward_hooks_from].
  - apply preserves_ret.
  - destruct (dict_get SUPPORTED_LINEAR_LAYERS (kind layer)) as [cls|].
    + apply preserves_bind; [apply tracked_new_rule|]. intros rule'.
      apply preserves_assoc. apply preserves_bind; [apply tracked_register_forward|].
      intros _. preserves_split tracked_leaf. apply IH.
    + case_bool_decide.
      * destruct rule as [r|]; [|apply preserves_raise].
        apply preserves_assoc. apply preserves_bind; [apply tracked_register_backward|].
        intros _. apply IH.
      * apply preserves_bind; [apply tracked_print_no_rule|]. intros _. apply IH.
Qed.

Lemma tracked__register_forward_hooks : preserves (tracked n) _register_forward_hooks.
Proof.
  unfold _register_forward_hooks, self_. apply preserves_read. intros s Hs.
  by apply tracked__register_forward_hooks_from.
Qed.

Lemma tracked__change_weights xs : preserves (tracked n) (_change_weights xs).
Proof.
  unfold _change_weights.
  preserves_split ltac:(first [ apply tracked__register_weight_hooks
                              | apply tracked__register_pre_hooks
                              | apply tracked__remove_forward_hooks
                              | tracked_leaf ]).
Qed.

(** The removals of the rule handles end and add no entry. *)
Lemma remove_rule_handles_spec rs : ∀ s : state,
  ∃ s', for_each (λ rule,
          match rule with
          | RuleObj r =>
              remove_if_present (_handle_input_hook r);;
              remove_if_present (_handle_output_hook r);;
              remove_if_present (_handle_layer_hook r)
          | RuleNone | NotARule => ret tt
          end) rs s = (Ok tt, s')
    ∧ s'.1 = s.1
    ∧ ∀ l e, e ∈ hooks_of s'.2 l → e ∈ hooks_of s.2 l.
Proof.
  assert (∀ h (s : state), ∃ s', remove_if_present h s = (Ok tt, s') ∧ s'.1 = s.1
            ∧ ∀ l e, e ∈ hooks_of s'.2 l → e ∈ hooks_of s.2 l) as Hone.
  { intros [h|] s; cbn; [|by eauto].
    eexists. split; [reflexivity|]. split; [done|].
    intros l e. cbn -[hooks_of]. rewrite hooks_of_remove_handle. tauto. }
  induction rs as [|rule rs IH]; intros s; [by exists s|].
  rewrite for_each_cons, bind_unfold.
  destruct rule as [|u|]; cbn -[for_each hooks_of]; try apply IH.
  rewrite !bind_unfold.
  destruct (Hone (_handle_input_hook u) s) as (s1 & -> & Hs1 & He1).
  rewrite bind_unfold.
  destruct (Hone (_handle_output_hook u) s1) as (s2 & -> & Hs2 & He2).
  destruct (Hone (_handle_layer_hook u) s2) as (s3 & -> & Hs3 & He3).
  destruct (IH s3) as (s' & -> & Hs' & He').
  exists s'. split; [done|]. split; [congruence|]. auto.
Qed.

Lemma _remove_backward_hooks_spec (s : state) :
  ∃ s', _remove_backward_hooks s = (Ok tt, s')
    ∧ s'.1 = s.1
    ∧ ∀ l e, e ∈ hooks_of s'.2 l →
             e ∈ hooks_of s.2 l ∧ ModuleHandle l (he_id e) ∉ backward_handles s.1.
Proof.
  unfold _remove_backward_hooks, self_.
  rewrite bind_unfold. cbn -[for_each mbind M_bind hooks_of].
  rewrite bind_unfold.
  destruct (remove_all_spec (backward_handles s.1) s) as (s5 & -> & Hs5 & _ & He5).
  rewrite bind_unfold. cbn -[for_each mbind M_bind hooks_of].
  destruct (remove_rule_handles_spec (rules s5.1) s5) as (s6 & -> & Hs6 & He6).
  exists s6. split; [done|]. split; [congruence|].
  intros l e He. by apply He6, He5 in He.
Qed.

Lemma _remove_forward_hooks_spec (s : state) :
  ∃ s', _remove_forward_hooks s = (Ok tt, s')
    ∧ s'.1 = s.1
    ∧ ∀ l e, e ∈ hooks_of s'.2 l →
             e ∈ hooks_of s.2 l ∧ ModuleHandle l (he_id e) ∉ forward_handles s.1.
Proof.
  unfold _remove_forward_hooks, self_.
  rewrite bind_unfold. cbn -[for_each mbind M_bind hooks_of].
  destruct (remove_all_spec (forward_handles s.1) s) as (s7 & -> & Hs7 & _ & He7).
  exists s7. split; [done|]. split; [done|].
  intros l e He. by apply He7 in He.
Qed.

(** After both removals no entry that the engine tracked is left. *)
Lemma removals_release (s s6 s7 : state) :
  tracked n s →
  _remove_backward_hooks s = (Ok tt, s6) →
  _remove_forward_hooks s6 = (Ok tt, s7) →
  released n s7.2.
Proof.
  intros Ht H6 H7.
  destruct (_remove_backward_hooks_spec s) as (s6' & H6' & Hs6 & He6).
  rewrite H6 in H6'. injection H6' as <-.
  destruct (_remove_forward_hooks_spec s6) as (s7' & H7' & Hs7 & He7).
  rewrite H7 in H7'. injection H7' as <-.
  intros l e He. apply He7 in He as [He Hnf]. apply He6 in He as [He Hnb].
  destruct (Ht l e He) as [?|Hin]; [done|].
  rewrite elem_of_app in Hin. rewrite Hs6 in Hnf. tauto.
Qed.

Lemma released_tail inputs ist xs mask rels tgt args (rcd : bool) :
  preserves (λ s : state, released n s.2)
    (run_undo_gradient_requirements xs mask;;
     relevances ← _select_layer_output rels;
     if rcd then
       r0 ← lift_result (index0 relevances);
       delta ← compute_convergence_delta r0 inputs args tgt;
       a ← lift_result (_format_attributions ist relevances);
       mret (VTuple [a; VTensor delta])
     else lift_result (_format_attributions ist relevances)).
Proof.
  unfold _select_layer_output, compute_convergence_delta.
  preserves_split ltac:(first
    [ by intros [o w] Hs
    | intros [o w] Hs; by rewrite run_forward_eq ]).
Qed.

End Handles.

Section Release.
Context {TL : TensorLib} {RT : Runtime}.


End Release.



(** ** The attributes that stay fixed, and the loops that cannot raise *)

Section Fixed.
Context {TL : TensorLib} {RT : Runtime}.

Variable c0 : module * list module * list rule_arg * bool * bool.

Ltac fixed_leaf :=
  first [ by intros [o w] Hs
        | intros [o w] Hs; by rewrite run_forward_eq
        | intros [o w] Hs; by rewrite run_compute_gradients_eq
        | intros [o w] Hs; by rewrite run_apply_gradient_requirements_eq ].

Lemma fixed_for_each {X} (body : X → M state unit) xs :
  (∀ x, preserves (fixed c0) (body x)) → preserves (fixed c0) (for_each body xs).
Proof. intros Hb. apply preserves_for_each. intros x _. apply Hb. Qed.

Lemma fixed__register_weight_hooks : preserves (fixed c0) _register_weight_hooks.
Proof.
  unfold _register_weight_hooks, self_.
  apply preserves_bind; [apply preserves_gets|]. intros ls.
  apply fixed_for_each. intros layer. preserves_split fixed_leaf.
Qed.

Lemma fixed__register_pre_hooks : preserves (fixed c0) _register_pre_hooks.
Proof.
  unfold _register_pre_hooks, self_.
  apply preserves_bind; [apply preserves_gets|]. intros ls.
  apply fixed_for_each. intros layer. preserves_split fixed_leaf.
Qed.

Lemma fixed__remove_forward_hooks : preserves (fixed c0) _remove_forward_hooks.
Proof.
  unfold _remove_forward_hooks, self_.
  apply preserves_bind; [apply preserves_gets|]. intros hs.
  apply fixed_for_each. intros h. fixed_leaf.
Qed.

Lemma fixed__remove_backward_hooks : preserves (fixed c0) _remove_backward_hooks.
Proof.
  unfold _remove_backward_hooks, self_, remove_if_present.
  apply preserves_bind; [apply preserves_gets|]. intros hs.
  apply preserves_bind; [apply fixed_for_each; intros h; fixed_leaf|]. intros _.
  apply preserves_bind; [apply preserves_gets|]. intros rs.
  apply fixed_for_each. intros rule. preserves_split fixed_leaf.
Qed.

Lemma fixed__change_weights xs : preserves (fixed c0) (_change_weights xs).
Proof.
  unfold _change_weights, self_.
  preserves_split ltac:(first [ apply fixed__register_weight_hooks
                              | apply fixed__register_pre_hooks
                              | apply fixed__remove_forward_hooks
                              | fixed_leaf ]).
Qed.

Lemma fixed__register_forward_hooks_from ls : ∀ rule,
  preserves (fixed c0) (_register_forward_hooks_from rule ls).
Proof.
  induction ls as [|layer ls IH]; intros rule; cbn [_register_forward_hooks_from].
  - apply preserves_ret.
  - unfold self_. preserves_split ltac:(first [ apply IH | fixed_leaf ]).
Qed.

Lemma fixed__register_forward_hooks : preserves (fixed c0) _register_forward_hooks.
Proof.
  unfold _register_forward_hooks, self_.
  apply preserves_bind; [apply preserves_gets|]. intros ls.
  apply fixed__register_forward_hooks_from.
Qed.

End Fixed.

Section Totality.
Context {TL : TensorLib} {RT : Runtime}.

Lemma for_each_total {S X} (body : X → M S unit) xs :
  (∀ x s, ∃ s', body x s = (Ok tt, s')) →
  ∀ s, ∃ s', for_each body xs s = (Ok tt, s').
Proof.
  intros Hb. induction xs as [|x xs IH]; intros s; [by exists s|].
  rewrite for_each_cons, bind_unfold. destruct (Hb x s) as [s1 ->]. apply IH.
Qed.

Lemma _register_weight_hooks_total (s : state) :
  ∃ s', _register_weight_hooks s = (Ok tt, s').
Proof.
  unfold _register_weight_hooks, self_. rewrite bind_unfold.
  cbn -[for_each dict_get SUPPORTED_LINEAR_LAYERS].
  apply for_each_total. intros layer s1.
  destruct (dict_get SUPPORTED_LINEAR_LAYERS (kind layer)); [|by eexists].
  rewrite bind_unfold. cbn. destruct (isinstance_ManipulateModules _); by eexists.
Qed.

Lemma _register_pre_hooks_total (s : state) :
  ∃ s', _register_pre_hooks s = (Ok tt, s').
Proof.
  unfold _register_pre_hooks, self_. rewrite bind_unfold.
  cbn -[for_each dict_get SUPPORTED_LINEAR_LAYERS].
  apply for_each_total. intros layer s1.
  destruct (dict_get SUPPORTED_LINEAR_LAYERS (kind layer)); [|by eexists].
  rewrite bind_unfold. cbn. destruct (isinstance_ManipulateModules _); by eexists.
Qed.

(** [_change_weights] returns, or raises what its forward pass raised. *)
Lemma _change_weights_result xs (s : state) r s' :
  _change_weights xs s = (r, s') →
  r = Ok tt ∨ ∃ e, r = Err e ∧ forward_failure e.
Proof.
  unfold _change_weights, self_. rewrite bind_unfold. cbn -[mbind M_bind].
  destruct (changes_weights s.1); [|intros [= <- <-]; by left].
  rewrite bind_unfold. destruct (_register_weight_hooks_total s) as [s1 ->].
  rewrite bind_unfold, run_forward_eq. cbn -[mbind M_bind].
  destruct (_run_forward _ _ _ _ _ _) as [[out|e] st] eqn:Ef; cbn -[mbind M_bind].
  - rewrite bind_unfold.
    destruct (_remove_forward_hooks_spec (s1.1, set_attrs_rt st.1 st.2 s1.2))
      as (s2 & -> & _).
    destruct (_register_pre_hooks_total s2) as [s3 ->]. intros [= <- <-]. by left.
  - intros [= <- <-]. right. exists e. split; [done|]. by repeat eexists.
Qed.

End Totality.

(** ** The rule behind the hook of an activation layer *)

Section ActivationHook.
Context {TL : TensorLib} {RT : Runtime}.

(** The step of the loop at a layer of the registry. *)
Lemma register_linear_step rule0 lin cls (s : state) :
  dict_get SUPPORTED_LINEAR_LAYERS (kind lin) = Some cls →
  let r := {| ri_id := next_rule s.2; ri_class := cls |} in
  ∃ s1,
    (∀ rest, _register_forward_hooks_from rule0 (lin :: rest) s
             = _register_forward_hooks_from (Some r) rest s1)
    ∧ {| he_id := next_handle s.2; he_slot := ForwardHook;
         he_cb := bound forward_hook r |} ∈ hooks_of s1.2 (ident lin).
Proof.
  intros Hcls r. destruct s as [o w].
  destruct (return_for_all_layers o) eqn:Eall.
  - eexists. split.
    + intros rest. cbn [_register_forward_hooks_from]. rewrite Hcls.
      unfold mbind, M_bind, bind, new_rule, register_hook, assign, modify, self_, gets.
      cbn -[_register_forward_hooks_from ident]. rewrite Eall.
      cbn -[_register_forward_hooks_from ident]. reflexivity.
    + unfold hooks_of. cbn -[ident].
      rewrite lookup_insert_eq. cbn -[ident].
      rewrite lookup_insert_eq. cbn -[ident]. set_solver.
  - eexists. split.
    + intros rest. cbn [_register_forward_hooks_from]. rewrite Hcls.
      unfold mbind, M_bind, bind, new_rule, register_hook, assign, modify, self_, gets.
      cbn -[_register_forward_hooks_from ident]. rewrite Eall.
      cbn -[_register_forward_hooks_from ident]. reflexivity.
    + unfold hooks_of. cbn -[ident]. rewrite lookup_insert_eq. cbn -[ident]. set_solver.
Qed.

(** Layers outside the registry leave the local variable [rule] as it is;
    once it is bound they cannot raise, and they remove no entry. *)
Lemma register_skip r mid : ∀ s : state,
  Forall (λ l, dict_get SUPPORTED_LINEAR_LAYERS (kind l) = None) mid →
  ∃ s1,
    _register_forward_hooks_from (Some r) mid s = (Ok tt, s1)
    ∧ (∀ rest, _register_forward_hooks_from (Some r) (mid ++ rest) s
               = _register_forward_hooks_from (Some r) rest s1)
    ∧ ∀ l e, e ∈ hooks_of s.2 l → e ∈ hooks_of s1.2 l.
Proof.
  induction mid as [|layer mid IH]; intros s Hmid.
  - exists s. by cbn.
  - apply Forall_cons in Hmid as [Hl Hmid].
    cbn [_register_forward_hooks_from app]. rewrite Hl.
    case_bool_decide.
    + set (s0 := (register_hook layer BackwardHook (bound backward_hook_activation r)
                  ≫= λ h, assign (λ o, set_backward_handles (backward_handles o ++ [h]) o))
                   s).
      destruct (IH s0.2 Hmid) as (s1 & Hrun & Hrest & Hmono).
      exists s1. split; [exact Hrun|]. split; [exact Hrest|].
      intros l e He. apply Hmono. subst s0.
      unfold mbind, M_bind, bind. cbn -[hooks_of ident].
      pose proof (hooks_of_register layer BackwardHook
                    (bound backward_hook_activation r) s l) as Hreg.
      cbn -[hooks_of ident] in Hreg. rewrite Hreg.
      case_decide; [apply elem_of_app; by left | done].
    + destruct (IH (print_no_rule (kind layer) s).2 Hmid) as (s1 & Hrun & Hrest & Hmono).
      exists s1. split; [exact Hrun|]. split; [exact Hrest|].
      intros l e He. by apply Hmono.
Qed.

Lemma leaves_of_copy_head m (w : world) relu rest :
  leaves m = relu :: rest →
  ∃ relu' rest', leaves (deepcopy m w).1 = relu' :: rest' ∧ kind relu' = kind relu.
Proof.
  intros Hm. destruct (deepcopy_spec m w) as (_ & _ & Hk & _).
  rewrite Hm in Hk. destruct (leaves (deepcopy m w).1) as [|relu' rest']; [done|].
  injection Hk as Hk _. by exists relu', rest'.
Qed.

(** C10. In the registration loop the pass-through hook of a rectifier is
    a method of the rule instance created for the last layer of the
    registry before it: after a registry layer [lin], whatever follows
    outside the registry ([mid]), the loop reaches the rectifier with the
    instance [r] made for [lin] (whose [forward_hook] sits on [lin]) and
    registers [r.backward_hook_activation] on it.  When the first leaf
    layer is a rectifier the variable is unbound: [_register_forward_hooks]
    raises [UnboundLocalError] and installs nothing, and [attribute] on
    such a model (without sigmoid or tanh) ends with that error unless a
    forward pass of the runtime has raised before. *)
Theorem activation_hook_uses_preceding_rule :
  (∀ rule0 lin cls mid relu rest (s : state),
     dict_get SUPPORTED_LINEAR_LAYERS (kind lin) = Some cls →
     Forall (λ l, dict_get SUPPORTED_LINEAR_LAYERS (kind l) = None) mid →
     kind relu = ReLU →
     let r := {| ri_id := next_rule s.2; ri_class := cls |} in
     ∃ s1,
       _register_forward_hooks_from rule0 (lin :: mid) s = (Ok tt, s1)
       ∧ {| he_id := next_handle s.2; he_slot := ForwardHook;
            he_cb := bound forward_hook r |} ∈ hooks_of s1.2 (ident lin)
       ∧ _register_forward_hooks_from rule0 (lin :: mid ++ relu :: rest) s
         = (backward_handle ←
              register_hook relu BackwardHook (bound backward_hook_activation r);
            assign (λ o, set_backward_handles (backward_handles o ++ [backward_handle]) o);;
            _register_forward_hooks_from (Some r) rest) s1)
  ∧ (∀ relu rest o (w : world),
       kind relu = ReLU → layers o = relu :: rest →
       _register_forward_hooks (o, w) = (Err (UnboundLocalError "rule"), (o, w)))
  ∧ (∀ relu rest o (w : world) inputs tgt rcd args all verb r s',
       kind relu = ReLU → leaves (model o) = relu :: rest →
       rejected (leaves (model o)) = false →
       attribute inputs tgt rcd args all verb (o, w) = (r, s') →
       r = Err (UnboundLocalError "rule") ∨ ∃ e, r = Err e ∧ forward_failure e).
Proof.
  split; [|split].
  - intros rule0 lin cls mid relu rest s Hcls Hmid Hrelu r.
    destruct (register_linear_step rule0 lin cls s Hcls) as (s_lin & Hstep & Hentry).
    destruct (register_skip r mid s_lin Hmid) as (s1 & Hrun & Hrest & Hmono).
    exists s1. split; [by rewrite Hstep|]. split; [by apply Hmono|].
    rewrite Hstep, Hrest. cbn [_register_forward_hooks_from]. rewrite Hrelu.
    reflexivity.
  - intros relu rest o w Hrelu Hls.
    unfold _register_forward_hooks, self_. rewrite bind_unfold. cbn -[mbind M_bind].
    rewrite Hls. cbn. rewrite Hrelu. reflexivity.
  - intros relu rest o w inputs tgt rcd args all verb r s' Hrelu Hm Hrej.
    rewrite attribute_setup, Hrej.
    destruct (leaves_of_copy_head (model o) w relu rest Hm)
      as (relu' & rest' & Hls & Hk).
    set (s0 := (engine_on _ _ _ _, _)).
    assert (layers s0.1 = relu' :: rest') as Hl0 by exact Hls.
    clearbody s0. unfold attribute_after_setup.
    rewrite bind_unfold, run_forward_eq. cbn -[mbind M_bind].
    destruct (_run_forward _ _ _ _ _ _) as [[out|e] st] eqn:Ef; cbn -[mbind M_bind];
      [|intros [= <- <-]; right; exists e; split; [done|]; by repeat eexists].
    rewrite bind_unfold, run_apply_gradient_requirements_eq. cbn -[mbind M_bind].
    set (s2 := (s0.1, _)). rewrite bind_unfold.
    destruct (_change_weights (_format_input inputs) s2) as [r3 s3] eqn:E3.
    pose proof (_change_weights_result _ _ _ _ E3) as Hr3.
    pose proof (preserves_eq _ _ _ _ _
                  (fixed__change_weights (fixed_fields s2.1) (_format_input inputs))
                  eq_refl E3) as Hf3.
    destruct Hr3 as [-> | (e & -> & He)]; [|intros [= <- <-]; right; by exists e].
    destruct s3 as [o3 w3]. rewrite bind_unfold.
    assert (layers o3 = relu' :: rest') as Hl3.
    { unfold fixed, fixed_fields in Hf3. cbn in Hf3. injection Hf3 as _ Hla _ _ _.
      by rewrite Hla. }
    unfold _register_forward_hooks at 1, self_. rewrite bind_unfold. cbn -[mbind M_bind].
    rewrite Hl3. cbn -[mbind M_bind]. rewrite Hk, Hrelu. cbn.
    intros [= <- <-]. by left.
Qed.

End ActivationHook.

Lemma activation_hook_uses_preceding_rule_witness :
  _register_forward_hooks
    (set_layers [Module 2 ReLU []; Module 1 Linear []] toy_lrp, toy_world)
  = (Err (UnboundLocalError "rule"),
     (set_layers [Module 2 ReLU []; Module 1 Linear []] toy_lrp, toy_world)).
Proof.
  apply (proj1 (proj2 activation_hook_uses_preceding_rule)
           (Module 2 ReLU []) [Module 1 Linear []]); reflexivity.
Defined.

(** ** What a call of [attribute] that returns has done *)

Lemma map_result_Ok {A B} (f : A → result B) xs ys :
  map_result f xs = Ok ys →
  length ys = length xs
  ∧ ∀ i x, xs !! i = Some x → ∃ y, f x = Ok y ∧ ys !! i = Some y.
Proof.
  revert ys. induction xs as [|x xs IH]; intros ys; cbn.
  - intros [= <-]. split; [done|]. intros i x Hx. by destruct i.
  - destruct (f x) as [y|e] eqn:Ef; [|done].
    destruct (map_result f xs) as [ys'|e]; [|done]. intros [= <-].
    destruct (IH ys' eq_refl) as [Hlen Hnth]. split; [cbn; by rewrite Hlen|].
    intros [|i] x' Hx'; cbn in *; [injection Hx' as <-; eauto | by apply Hnth].
Qed.

Section Returns.
Context {TL : TensorLib} {RT : Runtime}.

Lemma attribute_Ok_inv inputs tgt rcd args all verb o (w : world) v s' :
  attribute inputs tgt rcd args all verb (o, w) = (Ok v, s') →
  let s0 := (engine_on (deepcopy (model o) w).1 o all verb, (deepcopy (model o) w).2) in
  let xs := _format_input inputs in
  ∃ out s1 s4 grads s5 rels s8 sel,
    run_forward xs tgt args s0 = (Ok out, s1)
    ∧ fixed (fixed_fields s0.1) s4
    ∧ run_compute_gradients xs tgt args s4 = (Ok grads, s5)
    ∧ scale_by_input_and_output grads xs out = Ok rels
    ∧ fixed (fixed_fields s0.1) s8
    ∧ _select_layer_output rels s8 = (Ok sel, s8)
    ∧ if rcd then
        ∃ r0 delta a,
          index0 sel = Ok r0
          ∧ compute_convergence_delta r0 xs args tgt s8 = (Ok delta, s')
          ∧ _format_attributions (isinstance_tuple inputs) sel = Ok a
          ∧ v = VTuple [a; VTensor delta]
      else _format_attributions (isinstance_tuple inputs) sel = Ok v ∧ s' = s8.
Proof.
  intros H s0 xs. rewrite attribute_setup in H.
  destruct (rejected (leaves (model o))); [discriminate|].
  fold s0 in H. unfold attribute_after_setup in H. fold xs in H.
  apply bind_Ok_inv in H as (out & s1 & H1 & H).
  apply bind_Ok_inv in H as (mask & s2 & H2 & H).
  apply bind_Ok_inv in H as ([] & s3 & H3 & H).
  apply bind_Ok_inv in H as ([] & s4 & H4 & H).
  apply bind_Ok_inv in H as (grads & s5 & H5 & H).
  apply bind_Ok_inv in H as (rels & s5' & Hsc & H).
  apply lift_result_Ok_inv in Hsc as [Hsc ->].
  apply bind_Ok_inv in H as ([] & s6 & H6 & H).
  apply bind_Ok_inv in H as ([] & s7 & H7 & H).
  apply bind_Ok_inv in H as ([] & s8 & H8 & H).
  apply bind_Ok_inv in H as (sel & s8' & Hsel & H).
  set (c0 := fixed_fields s0.1).
  assert (fixed c0 s0) as F0 by reflexivity.
  assert (fixed c0 s1) as F1.
  { eapply preserves_eq; [|exact F0|exact H1].
    intros [o' w'] Hs. by rewrite run_forward_eq. }
  assert (fixed c0 s2) as F2.
  { eapply preserves_eq; [|exact F1|exact H2].
    intros [o' w'] Hs. by rewrite run_apply_gradient_requirements_eq. }
  assert (fixed c0 s3) as F3
    by (eapply preserves_eq; [apply fixed__change_weights|exact F2|exact H3]).
  assert (fixed c0 s4) as F4
    by (eapply preserves_eq; [apply fixed__register_forward_hooks|exact F3|exact H4]).
  assert (fixed c0 s5) as F5.
  { eapply preserves_eq; [|exact F4|exact H5].
    intros [o' w'] Hs. by rewrite run_compute_gradients_eq. }
  assert (fixed c0 s6) as F6
    by (eapply preserves_eq; [apply fixed__remove_backward_hooks|exact F5|exact H6]).
  assert (fixed c0 s7) as F7
    by (eapply preserves_eq; [apply fixed__remove_forward_hooks|exact F6|exact H7]).
  assert (fixed c0 s8) as F8.
  { eapply preserves_eq; [|exact F7|exact H8]. by intros [o' w'] Hs. }
  assert (s8' = s8) as ->.
  { revert Hsel. unfold _select_layer_output, self_.
    rewrite bind_unfold. cbn -[mbind M_bind].
    destruct (return_for_all_layers s8.1); [|by intros [= _ <-]].
    repeat (rewrite bind_unfold; cbn -[mbind M_bind]).
    destruct (collect_layer_relevances _ _ _); cbn; by intros [= <-]. }
  exists out, s1, s4, grads, s5, rels, s8, sel.
  repeat (split; [done|]).
  destruct rcd.
  - apply bind_Ok_inv in H as (r0 & s9 & Hr0 & H).
    apply lift_result_Ok_inv in Hr0 as [Hr0 ->].
    apply bind_Ok_inv in H as (delta & s10 & Hd & H).
    apply bind_Ok_inv in H as (a & s11 & Ha & H).
    apply lift_result_Ok_inv in Ha as [Ha ->].
    injection H as <- <-. by exists r0, delta, a.
  - by apply lift_result_Ok_inv in H as [H ->].
Qed.

(** The loop that gathers the relevances of the layers: the entries it
    adds, one per layer, after the ones it starts from. *)
Lemma collect_layer_relevances_spec (w : world) ls : ∀ acc rs,
  collect_layer_relevances w ls acc = Ok rs →
  length rs = length acc + length ls
  ∧ take (length acc) rs = acc
  ∧ ∀ j layer, ls !! j = Some layer →
      match layer_relevance w layer with
      | Some r => rs !! (length acc + j) = Some r
      | None => 0 < length acc + j
                ∧ rs !! (length acc + j) = rs !! (length acc + j - 1)
      end.
Proof.
  induction ls as [|layer ls IH]; intros acc rs; cbn.
  - intros [= <-]. split; [lia|]. split; [by rewrite firstn_all|]. by intros j l.
  - assert (∀ r, (layer_relevance w layer = Some r
                  ∨ (layer_relevance w layer = None ∧ last acc = Some r)) →
                 collect_layer_relevances w ls (acc ++ [r]) = Ok rs →
                 length rs = length acc + S (length ls)
                 ∧ take (length acc) rs = acc
                 ∧ ∀ j l, (layer :: ls) !! j = Some l →
                     match layer_relevance w l with
                     | Some r => rs !! (length acc + j) = Some r
                     | None => 0 < length acc + j
                               ∧ rs !! (length acc + j) = rs !! (length acc + j - 1)
                     end) as Hstep.
    { intros r Hr Hrs. destruct (IH _ _ Hrs) as (Hlen & Htake & Hnth).
      rewrite length_app in *. cbn in *.
      assert (take (length acc) rs = acc ∧ rs !! length acc = Some r) as [Hacc Hr'].
      { rewrite <- (take_drop (length acc + 1) rs) at 1 2. rewrite Htake.
        split.
        - rewrite take_app_le by (rewrite length_app; cbn; lia).
          by rewrite take_app_length.
        - rewrite lookup_app_l by (rewrite length_app; cbn; lia).
          by rewrite list_lookup_middle. }
      split; [lia|]. split; [done|].
      intros [|j] l Hl; cbn in Hl.
      - injection Hl as <-. rewrite Nat.add_0_r.
        destruct Hr as [-> | [-> Hlast]]; [done|].
        assert (acc ≠ []) as Hne by (intros ->; discriminate).
        assert (0 < length acc) by (destruct acc; [done | cbn; lia]).
        split; [done|]. rewrite Hr'.
        rewrite last_lookup in Hlast.
        rewrite <- Hacc in Hlast at 2. rewrite lookup_take_lt in Hlast by lia.
        replace (length acc - 1) with (pred (length acc)) by lia. done.
      - specialize (Hnth j l Hl).
        replace (length acc + S j) with (length acc + 1 + j) by lia.
        replace (length acc + 1 + j - 1) with (length acc + j) in * by lia.
        destruct (layer_relevance w l); [done|].
        destruct Hnth as [_ Hnth]. split; [lia|]. done. }
    destruct (layer_relevance w layer) as [r|] eqn:Er.
    + intros Hrs. apply (Hstep r); [by left | done].
    + destruct (last acc) as [r|] eqn:El; [|done].
      intros Hrs. apply (Hstep r); [right; by split | done].
Qed.

End Returns.

(** ** The relevances [attribute] returns *)

Section Relevances.
Context {TL : TensorLib} {RT : Runtime} {LH : LayerHelpers}.

Lemma scale_by_input_and_output_Ok grads xs out rels :
  scale_by_input_and_output grads xs out = Ok rels →
  length rels = length grads `min` length xs
  ∧ ∀ i g x, grads !! i = Some g → xs !! i = Some x →
      ∃ gx a, tmul g x = Ok gx ∧ tmul gx out = Ok a ∧ rels !! i = Some a.
Proof.
  intros H. apply map_result_Ok in H as [Hlen Hnth].
  split; [by rewrite Hlen, length_zip|].
  intros i g x Hg Hx.
  destruct (Hnth i (g, x)) as (a & Ha & Hi).
  { apply lookup_zip_with_Some. by exists g, x. }
  cbn in Ha. destruct (tmul g x) as [gx|e] eqn:Egx; [|done]. by exists gx, a.
Qed.

Lemma scale_by_input_Ok grads xs rels :
  scale_by_input grads xs = Ok rels →
  length rels = length grads `min` length xs
  ∧ ∀ i g x, grads !! i = Some g → xs !! i = Some x →
      ∃ a, tmul g x = Ok a ∧ rels !! i = Some a.
Proof.
  intros H. apply map_result_Ok in H as [Hlen Hnth].
  split; [by rewrite Hlen, length_zip|].
  intros i g x Hg Hx.
  destruct (Hnth i (g, x)) as (a & Ha & Hi).
  { apply lookup_zip_with_Some. by exists g, x. }
  by exists a.
Qed.

Lemma _select_layer_output_Ok rels (s : state) sel s' :
  _select_layer_output rels s = (Ok sel, s') →
  if return_for_all_layers s.1 then
    ∃ rs, collect_layer_relevances s.2 (layers s.1) rels = Ok rs
          ∧ sel = VTuple [VList (VTensor <$> rs)]
  else sel = VTuple (VTensor <$> rels).
Proof.
  unfold _select_layer_output, self_. rewrite bind_unfold. cbn -[mbind M_bind].
  destruct (return_for_all_layers s.1); [|by intros [= <- _]].
  repeat (rewrite bind_unfold; cbn -[mbind M_bind]).
  destruct (collect_layer_relevances _ _ _) as [rs|e]; cbn; [|done].
  intros [= <- _]. by exists rs.
Qed.


End Relevances.


(** ** The shape of what [attribute] returns *)

Section Shape.
Context {TL : TensorLib} {RT : Runtime}.

(** The runtime returns one gradient for each input. *)
Hypothesis gradients_per_input : ∀ hk m xs t a st grads st',
  compute_gradients hk m xs t a st = (Ok grads, st') → length grads = length xs.

(** [_format_attributions] keeps a tuple when the inputs were a tuple, and
    takes the element out of a tuple of one when they were not. *)
Hypothesis format_attributions_tuple : ∀ vs,
  _format_attributions true (VTuple vs) = Ok (VTuple vs).
Hypothesis format_attributions_single : ∀ v,
  _format_attributions false (VTuple [v]) = Ok v.

(** [_format_input] wraps a tensor into a tuple of one and keeps a tuple. *)
Hypothesis format_input_single : ∀ x, _format_input (SingleTensor x) = [x].
Hypothesis format_input_tuple : ∀ xs, _format_input (TensorTuple xs) = xs.

Lemma relevances_per_input inputs tgt rcd args all verb o (w : world) v s' :
  attribute inputs tgt rcd args all verb (o, w) = (Ok v, s') →
  ∃ rels s8 sel,
    length rels = length (_format_input inputs)
    ∧ fixed (fixed_fields (engine_on (deepcopy (model o) w).1 o all verb)) s8
    ∧ _select_layer_output rels s8 = (Ok sel, s8)
    ∧ if rcd then
        ∃ delta a s9,
          _format_attributions (isinstance_tuple inputs) sel = Ok a
          ∧ compute_convergence_delta
              match sel with VTuple (x :: _) => x | _ => sel end
              (_format_input inputs) args tgt s8 = (Ok delta, s9)
          ∧ v = VTuple [a; VTensor delta]
      else _format_attributions (isinstance_tuple inputs) sel = Ok v ∧ s' = s8.
Proof.
  intros H. apply attribute_Ok_inv in H
    as (out & s1 & s4 & grads & s5 & rels & s8 & sel
        & H1 & F4 & H5 & Hsc & F8 & Hsel & Hret).
  rewrite run_compute_gradients_eq in H5. cbn in H5.
  destruct (compute_gradients _ _ _ _ _ _) as [r5 st5] eqn:E5. cbn in H5.
  injection H5 as -> _. apply gradients_per_input in E5.
  apply scale_by_input_and_output_Ok in Hsc as [Hlen _].
  exists rels, s8, sel. split; [lia|]. split; [done|]. split; [done|].
  destruct rcd; [|done].
  destruct Hret as (r0 & delta & a & Hr0 & Hd & Ha & ->).
  exists delta, a, s'. split; [done|]. split; [|done].
  pose proof (_select_layer_output_Ok _ _ _ _ Hsel) as Hs.
  destruct (return_for_all_layers s8.1).
  - destruct Hs as (rs & _ & ->). cbn in Hr0. by injection Hr0 as <-.
  - subst sel. destruct rels as [|r rels]; cbn in Hr0; [done|]. by injection Hr0 as <-.
Qed.

(** C3, as amended.  With [return_for_all_layers=True] (and no convergence
    delta asked for) [attribute] returns a list, inside a tuple of one when
    the inputs were a tuple, whose length is the number of input tensors
    plus the number of traversed leaf layers.  After the relevances of
    the inputs it has one entry per layer, in traversal order: the
    relevance recorded on the layer if there is one, else the entry before
    it in the list. *)
Theorem all_layers_sequence inputs tgt args verb o (w : world) v s' :
  attribute inputs tgt false args true verb (o, w) = (Ok v, s') →
  let k := length (_format_input inputs) in
  ∃ rs,
    v = (if isinstance_tuple inputs
         then VTuple [VList (VTensor <$> rs)] else VList (VTensor <$> rs))
    ∧ length rs = k + length (leaves (model o))
    ∧ layers s'.1 = leaves (deepcopy (model o) w).1
    ∧ ∀ j layer, layers s'.1 !! j = Some layer →
        match layer_relevance s'.2 layer with
        | Some r => rs !! (k + j) = Some r
        | None => 0 < k + j ∧ rs !! (k + j) = rs !! (k + j - 1)
        end.
Proof.
  intros H k. apply relevances_per_input in H
    as (rels & s8 & sel & Hlen & F8 & Hsel & Hv & ->).
  apply _select_layer_output_Ok in Hsel.
  unfold fixed, fixed_fields in F8. cbn in F8. injection F8 as _ Hl8 _ Hall8 _.
  rewrite Hall8 in Hsel. destruct Hsel as (rs & Hrs & ->).
  apply collect_layer_relevances_spec in Hrs as (Hlrs & _ & Hnth).
  rewrite Hlen in Hlrs, Hnth. fold k in Hlrs, Hnth.
  exists rs. split; [|split; [|split; [done|done]]].
  - destruct (isinstance_tuple inputs).
    + rewrite format_attributions_tuple in Hv. by injection Hv as <-.
    + rewrite format_attributions_single in Hv. by injection Hv as <-.
  - by rewrite Hlrs, Hl8, deepcopy_leaves_length.
Qed.


End Shape.

Lemma toy_gradients_per_input hk m xs t a (st : gmap loc (mattrs unit) * bool) grads st' :
  compute_gradients (Runtime := toy_runtime) hk m xs t a st = (Ok grads, st') →
  length grads = length xs.
Proof.
  cbn. destruct (toy_output xs t); [|done]. destruct st.2; [|done].
  intros [= <- _]. by rewrite length_fmap.
Qed.

Lemma all_layers_sequence_witness :
  ∃ rs : list ztensor, length rs = 1 + length (leaves toy_net).
Proof.
  assert (attribute toy_single None false None true false (toy_lrp, toy_world)
          = (Ok (VList [toy_attribution; VTensor (T1 [3; 7]%Z); VTensor (T1 [3; 7]%Z)]),
             (attribute toy_single None false None true false
                (toy_lrp, toy_world)).2)) as Hrun
    by (apply run_pair; vm_compute; reflexivity).
  destruct (all_layers_sequence toy_gradients_per_input
              ltac:(done) ltac:(done) _ _ _ _ _ _ _ _ Hrun) as (rs & _ & Hlen & _).
  by exists rs.
Defined.

(** C3 as stated fails for a tuple of two inputs: with the two leaf layers
    of the model the list has four entries, not three, and what is
    returned is a tuple of one holding that list. *)
Lemma all_layers_of_two_inputs :
  (attribute toy_pair None false None true false (toy_lrp, toy_world)).1
  = Ok (VTuple [VList [toy_attribution; toy_attribution;
                       VTensor (T1 [3; 7]%Z); VTensor (T1 [3; 7]%Z)]])
  ∧ length (leaves toy_net) + 1 = 3.
Proof. split; [by vm_compute | reflexivity]. Qed.



(** ** The convergence delta *)

(** C2 at two examples.  The delta that [attribute] returns after the
    attributions is one scalar for the whole batch: the sum of the outputs
    of both examples minus the sum of all attributions of the first
    input. *)
Theorem convergence_delta_is_one_scalar :
  (attribute toy_single None true None false false (toy_lrp, toy_world)).1
  = Ok (VTuple [toy_attribution; VTensor (T0 (-44))])
  ∧ numel (T0 (-44)) = 1
  ∧ size0 toy_input = 2.
Proof. split; [by vm_compute | split; reflexivity]. Qed.

(** * Further properties of the engine *)

(** ** Construction and traversal *)

Section Construction.
Context {TL : TensorLib} {RT : Runtime}.

Lemma _check_rules_loop rs : ∀ o (w : world),
  NotARule ∉ rs →
  for_each (λ rule,
    match rule with
    | RuleNone => ret tt
    | NotARule => raise (TypeError check_rules_msg)
    | RuleObj r =>
        if isinstance_ManipulateModules (ur_class r)
        then assign (set_changes_weights true)
        else ret tt
    end) rs (o, w)
  = (Ok tt, (if existsb manipulates rs then set_changes_weights true o else o, w)).
Proof.
  induction rs as [|r rs IH]; intros o w Hnot; [reflexivity|].
  apply not_elem_of_cons in Hnot as [Hr Hnot].
  rewrite for_each_cons, bind_unfold.
  destruct r as [|u|]; [| |done]; cbn -[for_each].
  - by rewrite IH.
  - destruct (isinstance_ManipulateModules (ur_class u)); cbn -[for_each].
    + rewrite IH by done. cbn. by destruct (existsb manipulates rs).
    + by rewrite IH.
Qed.

Lemma _check_rules_raises rs : ∀ o (w : world),
  NotARule ∈ rs →
  ∃ o', for_each (λ rule,
    match rule with
    | RuleNone => ret tt
    | NotARule => raise (TypeError check_rules_msg)
    | RuleObj r =>
        if isinstance_ManipulateModules (ur_class r)
        then assign (set_changes_weights true)
        else ret tt
    end) rs (o, w) = (Err (TypeError check_rules_msg), (o', w)).
Proof.
  induction rs as [|r rs IH]; intros o w Hin; [by apply not_elem_of_nil in Hin|].
  rewrite for_each_cons, bind_unfold.
  destruct r as [|u|]; cbn -[for_each].
  - apply IH. by apply elem_of_cons in Hin as [|].
  - destruct (isinstance_ManipulateModules (ur_class u)); cbn -[for_each];
      apply IH; by apply elem_of_cons in Hin as [|].
  - by eexists.
Qed.


Lemma leaves_childless m : Forall (λ c, children c = []) (leaves m).
Proof.
  induction m as [l k cs IH] using module_ind'. cbn.
  induction IH as [|c cs Hc _ IHcs]; cbn; [constructor|].
  apply Forall_app. split; [|exact IHcs].
  destruct (children c) eqn:Ec; [by repeat constructor | exact Hc].
Qed.


End Construction.


(** ** The registration loop *)

Section Registration.
Context {TL : TensorLib} {RT : Runtime}.

Lemma in_registry_Some l cls :
  dict_get SUPPORTED_LINEAR_LAYERS (kind l) = Some cls → in_registry l = true.
Proof. intros H. unfold in_registry. rewrite H. by apply bool_decide_eq_true. Qed.

Lemma in_registry_None l :
  dict_get SUPPORTED_LINEAR_LAYERS (kind l) = None → in_registry l = false.
Proof.
  intros H. unfold in_registry. rewrite H. apply bool_decide_eq_false. by intros [? ?].
Qed.

Lemma registry_step_effects rule0 lin cls (s : state) :
  dict_get SUPPORTED_LINEAR_LAYERS (kind lin) = Some cls →
  ∃ r s1,
    (∀ rest, _register_forward_hooks_from rule0 (lin :: rest) s
             = _register_forward_hooks_from (Some r) rest s1)
    ∧ stdout s1.2 = stdout s.2
    ∧ forward_handles s1.1
      = forward_handles s.1 ++ [ModuleHandle (ident lin) (next_handle s.2)]
    ∧ backward_handles s1.1
      = backward_handles s.1
        ++ (if return_for_all_layers s.1
            then [ModuleHandle (ident lin) (S (next_handle s.2))] else [])
    ∧ return_for_all_layers s1.1 = return_for_all_layers s.1.
Proof.
  intros Hcls. destruct s as [o w].
  destruct (return_for_all_layers o) eqn:Eall.
  - eexists _, _. split.
    + intros rest. cbn [_register_forward_hooks_from]. rewrite Hcls.
      unfold mbind, M_bind, bind, new_rule, register_hook, assign, modify, self_, gets.
      cbn -[_register_forward_hooks_from ident]. rewrite Eall.
      cbn -[_register_forward_hooks_from ident]. reflexivity.
    + cbn -[ident]. by rewrite Eall.
  - eexists _, _. split.
    + intros rest. cbn [_register_forward_hooks_from]. rewrite Hcls.
      unfold mbind, M_bind, bind, new_rule, register_hook, assign, modify, self_, gets.
      cbn -[_register_forward_hooks_from ident]. rewrite Eall.
      cbn -[_register_forward_hooks_from ident]. reflexivity.
    + cbn -[ident]. by rewrite Eall, app_nil_r.
Qed.

Lemma activation_step_effects r relu (s : state) :
  dict_get SUPPORTED_LINEAR_LAYERS (kind relu) = None →
  kind relu ∈ SUPPORTED_NON_LINEAR_LAYERS →
  ∃ s1,
    (∀ rest, _register_forward_hooks_from (Some r) (relu :: rest) s
             = _register_forward_hooks_from (Some r) rest s1)
    ∧ stdout s1.2 = stdout s.2
    ∧ forward_handles s1.1 = forward_handles s.1
    ∧ backward_handles s1.1
      = backward_handles s.1 ++ [ModuleHandle (ident relu) (next_handle s.2)]
    ∧ return_for_all_layers s1.1 = return_for_all_layers s.1.
Proof.
  intros Hreg Hact. destruct s as [o w]. eexists. split.
  - intros rest. cbn [_register_forward_hooks_from]. rewrite Hreg.
    rewrite bool_decide_eq_true_2 by done.
    unfold mbind, M_bind, bind, register_hook, assign, modify.
    cbn -[_register_forward_hooks_from ident]. reflexivity.
  - by cbn -[ident].
Qed.

Lemma warning_step_effects rule l (s : state) :
  dict_get SUPPORTED_LINEAR_LAYERS (kind l) = None →
  kind l ∉ SUPPORTED_NON_LINEAR_LAYERS →
  ∃ s1,
    (∀ rest, _register_forward_hooks_from rule (l :: rest) s
             = _register_forward_hooks_from rule rest s1)
    ∧ stdout s1.2 = stdout s.2 ++ [kind l]
    ∧ forward_handles s1.1 = forward_handles s.1
    ∧ backward_handles s1.1 = backward_handles s.1
    ∧ return_for_all_layers s1.1 = return_for_all_layers s.1.
Proof.
  intros Hreg Hact. destruct s as [o w]. eexists. split.
  - intros rest. cbn [_register_forward_hooks_from]. rewrite Hreg.
    rewrite bool_decide_eq_false_2 by done.
    unfold mbind, M_bind, bind, print_no_rule, update_world, modify.
    cbn -[_register_forward_hooks_from]. reflexivity.
  - by cbn.
Qed.

Lemma register_loop_spec ls : ∀ rule (s : state),
  let r := _register_forward_hooks_from rule ls s in
  if (if rule is None then activation_before_rule ls else false)
  then r.1 = Err (UnboundLocalError "rule")
  else r.1 = Ok tt
       ∧ stdout r.2.2 = stdout s.2 ++ without_rule ls
       ∧ length (forward_handles r.2.1)
         = length (forward_handles s.1) + length (filter (λ l, in_registry l = true) ls)
       ∧ length (backward_handles r.2.1)
         = length (backward_handles s.1)
           + length (filter (λ l, in_registry l = false ∧ is_activation l = true) ls)
           + (if return_for_all_layers s.1
              then length (filter (λ l, in_registry l = true) ls) else 0).
Proof.
  induction ls as [|l ls IH]; intros rule s; cbn zeta.
  - unfold without_rule. cbn. unfold ret. cbn. rewrite app_nil_r.
    destruct rule; (split; [done|]; split; [done|]; split; [lia|];
                    destruct (return_for_all_layers _); lia).
  - destruct (dict_get SUPPORTED_LINEAR_LAYERS (kind l)) as [cls|] eqn:Ereg.
    + pose proof (in_registry_Some _ _ Ereg) as Hin.
      destruct (registry_step_effects rule l cls s Ereg)
        as (r & s1 & Hstep & Hout & Hfh & Hbh & Hall).
      rewrite Hstep. specialize (IH (Some r) s1). cbn zeta in IH. cbn match in IH.
      destruct IH as (Hok & Hstd & Hf & Hb).
      assert ((if rule is None then activation_before_rule (l :: ls) else false) = false)
        as -> by (destruct rule; cbn; by rewrite ?Hin).
      unfold without_rule in *. rewrite !filter_cons, Hin.
      rewrite decide_False by (intros [? _]; done).
      rewrite decide_True by done. rewrite decide_False by (intros [? _]; done).
      split; [done|]. split; [by rewrite Hstd, Hout|].
      rewrite Hf, Hb, Hfh, Hbh, Hall, !length_app. cbn.
      split; [lia|]. destruct (return_for_all_layers s.1); cbn; lia.
    + pose proof (in_registry_None _ Ereg) as Hin.
      destruct (decide (kind l ∈ SUPPORTED_NON_LINEAR_LAYERS)) as [Hact|Hact].
      * assert (is_activation l = true) as Hia by by apply bool_decide_eq_true.
        destruct rule as [r|].
        -- destruct (activation_step_effects r l s Ereg Hact)
             as (s1 & Hstep & Hout & Hfh & Hbh & Hall).
           rewrite Hstep. specialize (IH (Some r) s1). cbn zeta in IH. cbn match in IH.
           destruct IH as (Hok & Hstd & Hf & Hb).
           unfold without_rule in *. rewrite !filter_cons, Hin, Hia.
           rewrite decide_False by (intros [_ ?]; done).
           rewrite decide_False by done. rewrite decide_True by done.
           split; [done|]. split; [by rewrite Hstd, Hout|].
           rewrite Hf, Hb, Hfh, Hbh, Hall, !length_app. cbn. split; lia.
        -- cbn [activation_before_rule]. rewrite Hin, Hia.
           cbn [_register_forward_hooks_from]. rewrite Ereg.
           by rewrite bool_decide_eq_true_2.
      * assert (is_activation l = false) as Hia by by apply bool_decide_eq_false.
        destruct (warning_step_effects rule l s Ereg Hact)
          as (s1 & Hstep & Hout & Hfh & Hbh & Hall).
        rewrite Hstep. specialize (IH rule s1). cbn zeta in IH.
        assert ((if rule is None then activation_before_rule (l :: ls) else false)
                = (if rule is None then activation_before_rule ls else false)) as ->
          by (destruct rule; cbn; by rewrite ?Hin, ?Hia).
        destruct (if rule is None then activation_before_rule ls else false); [done|].
        destruct IH as (Hok & Hstd & Hf & Hb).
        unfold without_rule in *. rewrite !filter_cons, Hin, Hia.
        rewrite decide_True by done.
        rewrite decide_False by done. rewrite decide_False by (intros [_ ?]; done).
        split; [done|]. split; [rewrite Hstd, Hout, <- app_assoc; by rewrite fmap_cons|].
        rewrite Hf, Hb, Hfh, Hbh, Hall. split; lia.
Qed.

(** X3. Hook registration raises exactly when an activation layer comes
    before every layer of the registry in the traversal (not only as the
    first leaf: layers without rule may come before it), and the error is
    then the unbound local variable; in every other case it returns. *)
Theorem registration_raises_iff_activation_first (s : state) :
  (_register_forward_hooks s).1
  = if activation_before_rule (layers s.1)
    then Err (UnboundLocalError "rule") else Ok tt.
Proof.
  unfold _register_forward_hooks, self_. rewrite bind_unfold. cbn -[mbind M_bind].
  pose proof (register_loop_spec (layers s.1) None (s.1, s.2)) as H.
  cbn zeta in H. cbn match in H. destruct s as [o w]. cbn in *.
  destruct (activation_before_rule (layers o)); [done|]. by destruct H as [-> _].
Qed.

(** X4. When hook registration returns, it has printed one warning for
    each layer that is neither in the registry nor an activation, in
    traversal order and nothing else; it has added one forward handle per
    registry layer, and one backward handle per activation layer plus,
    when all layers are asked for, one per registry layer. *)
Theorem registration_effects (s : state) s' :
  _register_forward_hooks s = (Ok tt, s') →
  stdout s'.2 = stdout s.2 ++ without_rule (layers s.1)
  ∧ length (forward_handles s'.1)
    = length (forward_handles s.1)
      + length (filter (λ l, in_registry l = true) (layers s.1))
  ∧ length (backward_handles s'.1)
    = length (backward_handles s.1)
      + length (filter (λ l, in_registry l = false ∧ is_activation l = true) (layers s.1))
      + (if return_for_all_layers s.1
         then length (filter (λ l, in_registry l = true) (layers s.1)) else 0).
Proof.
  unfold _register_forward_hooks, self_. rewrite bind_unfold. cbn -[mbind M_bind].
  pose proof (register_loop_spec (layers s.1) None (s.1, s.2)) as H.
  cbn zeta in H. cbn match in H. destruct s as [o w]. cbn in *.
  intros Hrun. rewrite Hrun in H. cbn in H.
  destruct (activation_before_rule (layers o)); [done|]. by destruct H as (_ & ? & ? & ?).
Qed.

End Registration.

Lemma registration_effects_witness :
  stdout (_register_forward_hooks (toy_lrp, toy_world)).2.2 = [].
Proof.
  assert (_register_forward_hooks (toy_lrp, toy_world)
          = (Ok tt, (_register_forward_hooks (toy_lrp, toy_world)).2)) as Hrun
    by (apply run_pair; vm_compute; reflexivity).
  destruct (registration_effects _ _ Hrun) as (Hout & _).
  rewrite Hout. reflexivity.
Defined.

(** ** The selection of the relevances and the delta *)

Section Selection.
Context {TL : TensorLib} {RT : Runtime}.

Lemma collect_layer_relevances_total (w : world) ls : ∀ acc,
  acc ≠ [] → ∃ rs, collect_layer_relevances w ls acc = Ok rs.
Proof.
  induction ls as [|l ls IH]; intros acc Hacc; cbn; [by eexists|].
  destruct (layer_relevance w l) as [r|].
  - apply IH. by destruct acc.
  - destruct (last acc) as [r|] eqn:El.
    + apply IH. by destruct acc.
    + apply last_None in El. done.
Qed.

(** X8. [_select_layer_output] never changes the state, and the only way
    it raises is the index error of [relevances[-1]] on an empty list:
    when all layers are asked for, there is no input relevance and the
    first layer has no relevance of its own.  In every other case it
    returns. *)
Theorem select_layer_output_raises_iff rels (s : state) :
  let r := _select_layer_output rels s in
  r.2 = s
  ∧ ((return_for_all_layers s.1 = true ∧ rels = []
      ∧ ∃ l rest, layers s.1 = l :: rest ∧ layer_relevance s.2 l = None)
     → r.1 = Err IndexError)
  ∧ (¬ (return_for_all_layers s.1 = true ∧ rels = []
        ∧ ∃ l rest, layers s.1 = l :: rest ∧ layer_relevance s.2 l = None)
     → ∃ v, r.1 = Ok v).
Proof.
  cbn zeta. unfold _select_layer_output, self_. rewrite bind_unfold. cbn -[mbind M_bind].
  destruct (return_for_all_layers s.1) eqn:Eall.
  - repeat (rewrite bind_unfold; cbn -[mbind M_bind]).
    destruct rels as [|r0 rels].
    + destruct (layers s.1) as [|l rest] eqn:El; cbn.
      * split; [done|]. split; [by intros (_ & _ & l & rest & ? & _)|]. by eexists.
      * destruct (layer_relevance s.2 l) as [r|] eqn:Er.
        -- destruct (collect_layer_relevances_total s.2 rest [r]) as [rs Hrs]; [done|].
           cbn. rewrite Hrs. cbn. split; [done|]. split; [|by eexists].
           intros (_ & _ & l' & rest' & [= <- <-] & Hn). congruence.
        -- cbn. split; [done|]. split; [done|]. intros Hc. exfalso. apply Hc.
           split; [done|]. split; [done|]. by exists l, rest.
    + destruct (collect_layer_relevances_total s.2 (layers s.1) (r0 :: rels))
        as [rs Hrs]; [done|].
      rewrite Hrs. cbn. split; [done|]. split; [by intros (_ & ? & _)|]. by eexists.
  - split; [done|]. split; [by intros (? & _)|]. by eexists.
Qed.

(** X9. With both [return_for_all_layers] and [return_convergence_delta]
    set, [attribute] never returns a result: the delta is asked of
    [relevances[0]], which is then the list of all relevances, and
    [torch.sum] takes no list. *)
Theorem all_layers_with_delta_never_returns inputs tgt args verb o (w : world) v s' :
  attribute inputs tgt true args true verb (o, w) ≠ (Ok v, s').
Proof.
  intros H. apply attribute_Ok_inv in H
    as (out & s1 & s4 & grads & s5 & rels & s8 & sel
        & _ & _ & _ & _ & F8 & Hsel & r0 & delta & a & Hr0 & Hd & _).
  apply _select_layer_output_Ok in Hsel.
  unfold fixed, fixed_fields in F8. cbn in F8. injection F8 as _ _ _ Hall8 _.
  rewrite Hall8 in Hsel. destruct Hsel as (rs & _ & ->).
  cbn in Hr0. injection Hr0 as <-.
  unfold compute_convergence_delta in Hd.
  apply bind_Ok_inv in Hd as (rel & s9 & _ & Hd).
  apply bind_Ok_inv in Hd as (x & s10 & Hx & _).
  by apply lift_result_Ok_inv in Hx as [Hx _].
Qed.

(** X10. A call of [attribute] takes from the engine object its model and
    its rules only: the layers, the handles and the flags that an earlier
    call (or the constructor) left on the object change neither what the
    call returns or raises nor the store it leaves. *)
Theorem attribute_ignores_transient_attributes inputs tgt rcd args all verb o o'
    (w : world) :
  model o = model o' → rules o = rules o' →
  (attribute inputs tgt rcd args all verb (o, w)).1
  = (attribute inputs tgt rcd args all verb (o', w)).1
  ∧ (attribute inputs tgt rcd args all verb (o, w)).2.2
    = (attribute inputs tgt rcd args all verb (o', w)).2.2.
Proof.
  intros Hm Hr. rewrite !attribute_setup, <- Hm.
  destruct (rejected (leaves (model o))); [done|].
  unfold engine_on. by rewrite Hr.
Qed.

(** X12. The delta that [attribute] returns with the attributions of the
    inputs is the sum of a forward output of the engine's copy minus the
    sum of the attribution of the first input: the attributions of the
    other tensors of a tuple do not enter it. *)
Theorem delta_uses_first_input_only inputs tgt args verb o (w : world) v s' :
  attribute inputs tgt true args false verb (o, w) = (Ok v, s') →
  ∃ a r0 rels hk st out st1,
    v = VTuple [a; VTensor (tsub (torch_sum out) (torch_sum r0))]
    ∧ _format_attributions (isinstance_tuple inputs) (VTuple (VTensor <$> (r0 :: rels)))
      = Ok a
    ∧ _run_forward hk (deepcopy (model o) w).1 (_format_input inputs) tgt args st
      = (Ok out, st1).
Proof.
  intros H. apply attribute_Ok_inv in H
    as (out & s1 & s4 & grads & s5 & rels & s8 & sel
        & _ & _ & _ & _ & F8 & Hsel & r0 & delta & a & Hr0 & Hd & Ha & ->).
  apply _select_layer_output_Ok in Hsel.
  unfold fixed, fixed_fields in F8. cbn in F8. injection F8 as Hm8 _ _ Hall8 _.
  rewrite Hall8 in Hsel. subst sel.
  destruct rels as [|t rels]; cbn in Hr0; [done|]. injection Hr0 as <-.
  unfold compute_convergence_delta in Hd.
  apply bind_Ok_inv in Hd as (rel & s9 & Hf & Hd).
  apply bind_Ok_inv in Hd as (x & s10 & Hx & Hd).
  apply lift_result_Ok_inv in Hx as [Hx ->]. cbn in Hx. injection Hx as <-.
  injection Hd as <- _.
  rewrite run_forward_eq in Hf. cbn in Hf. rewrite Hm8 in Hf.
  destruct (_run_forward _ _ _ _ _ _) as [r9 st9] eqn:E9. cbn in Hf.
  injection Hf as -> _.
  by exists a, t, rels, (hooks s8.2), (attrs s8.2, rt s8.2), rel, st9.
Qed.

Lemma fixed_attribute_after_setup c0 inputs tgt rcd args :
  preserves (fixed c0) (attribute_after_setup inputs tgt rcd args).
Proof.
  unfold attribute_after_setup, _select_layer_output, compute_convergence_delta,
    run_undo_gradient_requirements, self_.
  preserves_split ltac:(first
    [ apply fixed__change_weights
    | apply fixed__register_forward_hooks
    | apply fixed__remove_backward_hooks
    | apply fixed__remove_forward_hooks
    | by intros [o' w'] Hs
    | intros [o' w'] Hs; by rewrite run_forward_eq
    | intros [o' w'] Hs; by rewrite run_compute_gradients_eq
    | intros [o' w'] Hs; by rewrite run_apply_gradient_requirements_eq ]).
Qed.

(** X13. After a call of [attribute], however it ends, the model of the
    engine is the copy made by that call, never again the model it had:
    the next call copies the copy.  Unless the traversal has raised, the
    layers of the engine are the leaf layers of that copy and
    [changes_weights] is set. *)
Theorem engine_keeps_the_copy inputs tgt rcd args all verb o (w : world) :
  let r := attribute inputs tgt rcd args all verb (o, w) in
  model r.2.1 = (deepcopy (model o) w).1
  ∧ rules r.2.1 = rules o
  ∧ changes_weights r.2.1 = true
  ∧ (rejected (leaves (model o)) = false →
     layers r.2.1 = leaves (deepcopy (model o) w).1
     ∧ return_for_all_layers r.2.1 = all).
Proof.
  cbn zeta. rewrite attribute_setup.
  destruct (rejected (leaves (model o))); [done|].
  pose proof (fixed_attribute_after_setup
                (fixed_fields (engine_on (deepcopy (model o) w).1 o all verb))
                inputs tgt rcd args
                (engine_on (deepcopy (model o) w).1 o all verb, (deepcopy (model o) w).2)
                eq_refl) as Hf.
  unfold fixed, fixed_fields in Hf. cbn in Hf. by injection Hf as -> -> -> -> ->.
Qed.

End Selection.

Lemma attribute_ignores_transient_attributes_witness :
  (attribute toy_single None false None false false
     (set_forward_handles [ModuleHandle 7 7] toy_lrp, toy_world)).1
  = Ok toy_attribution.
Proof.
  rewrite (proj1 (attribute_ignores_transient_attributes toy_single None false None
                    false false (set_forward_handles [ModuleHandle 7 7] toy_lrp)
                    toy_lrp toy_world eq_refl eq_refl)).
  vm_compute. reflexivity.
Defined.

Lemma delta_uses_first_input_only_witness :
  ∃ (a : value) (r0 out : ztensor),
    VTuple [VTuple [toy_attribution; toy_attribution]; VTensor (T0 (-44))]
    = VTuple [a; VTensor (tsub (torch_sum out) (torch_sum r0))].
Proof.
  assert (attribute toy_pair None true None false false (toy_lrp, toy_world)
          = (Ok (VTuple [VTuple [toy_attribution; toy_attribution]; VTensor (T0 (-44))]),
             (attribute toy_pair None true None false false (toy_lrp, toy_world)).2))
    as Hrun by (apply run_pair; vm_compute; reflexivity).
  destruct (delta_uses_first_input_only _ _ _ _ _ _ _ _ Hrun)
    as (a & r0 & rels & hk & st & out & st1 & Hv & _ & _).
  by exists a, r0, out.
Defined.

Lemma select_layer_output_raises_iff_witness :
  ∃ v, (_select_layer_output toy_inputs toy_state).1 = Ok v.
Proof.
  apply (select_layer_output_raises_iff toy_inputs toy_state).
  by intros (? & ? & _).
Defined.

Lemma all_layers_with_delta_never_returns_witness :
  attribute toy_single None true None true false (toy_lrp, toy_world)
  ≠ (Ok toy_attribution, (toy_lrp, toy_world)).
Proof. apply all_layers_with_delta_never_returns. Defined.

Lemma engine_keeps_the_copy_witness :
  layers (attribute toy_single None false None false false (toy_lrp, toy_world)).2.1
  = [Module 4 Linear []; Module 5 ReLU []].
Proof.
  destruct (engine_keeps_the_copy toy_single None false None false false
              toy_lrp toy_world) as (_ & _ & _ & Hl).
  destruct (Hl eq_refl) as [-> _]. reflexivity.
Defined.

(** ** The hooks that the passes install *)

Section Installed.
Context {TL : TensorLib} {RT : Runtime}.

Lemma only_registration_register_forward (s0 : state) all ls0 layer slot cb :
  registration_hook all {| he_id := 0; he_slot := slot; he_cb := cb |} →
  layer ∈ ls0 →
  preserves (only_registration_hooks s0 all ls0)
    (register_hook layer slot cb ≫= λ h,
       assign (λ o, set_forward_handles (forward_handles o ++ [h]) o)).
Proof.
  intros Hk Hin [o w] [Hall He]. unfold mbind, M_bind, bind. split; [exact Hall|].
  intros l e. cbn -[hooks_of ident].
  pose proof (hooks_of_register layer slot cb (o, w) l) as Hreg.
  cbn -[hooks_of ident] in Hreg. rewrite Hreg. clear Hreg.
  case_decide as Hl; [|by apply He].
  rewrite elem_of_app, list_elem_of_singleton. intros [Hold | ->]; [by apply He|].
  right. split; [exact Hk|]. subst l. by apply list_elem_of_fmap_2.
Qed.

Lemma only_registration_register_backward (s0 : state) all ls0 layer slot cb :
  registration_hook all {| he_id := 0; he_slot := slot; he_cb := cb |} →
  layer ∈ ls0 →
  preserves (only_registration_hooks s0 all ls0)
    (register_hook layer slot cb ≫= λ h,
       assign (λ o, set_backward_handles (backward_handles o ++ [h]) o)).
Proof.
  intros Hk Hin [o w] [Hall He]. unfold mbind, M_bind, bind. split; [exact Hall|].
  intros l e. cbn -[hooks_of ident].
  pose proof (hooks_of_register layer slot cb (o, w) l) as Hreg.
  cbn -[hooks_of ident] in Hreg. rewrite Hreg. clear Hreg.
  case_decide as Hl; [|by apply He].
  rewrite elem_of_app, list_elem_of_singleton. intros [Hold | ->]; [by apply He|].
  right. split; [exact Hk|]. subst l. by apply list_elem_of_fmap_2.
Qed.

Lemma only_registration_loop (s0 : state) all ls0 ls : ∀ rule,
  ls ⊆ ls0 →
  preserves (only_registration_hooks s0 all ls0) (_register_forward_hooks_from rule ls).
Proof.
  induction ls as [|layer ls IH]; intros rule Hsub; cbn [_register_forward_hooks_from].
  - apply preserves_ret.
  - assert (layer ∈ ls0) as Hin by (apply Hsub; by left).
    assert (ls ⊆ ls0) as Hsub' by (intros x Hx; apply Hsub; by right).
    destruct (dict_get SUPPORTED_LINEAR_LAYERS (kind layer)) as [cls|].
    + apply preserves_bind; [by intros [o w] Hs|]. intros rule'.
      apply preserves_assoc. apply preserves_bind.
      { apply only_registration_register_forward; [by left | done]. }
      intros _. unfold self_. apply preserves_read. intros s [Hall He].
      rewrite Hall. apply preserves_then; [|intros _; by apply IH].
      destruct all; [|done].
      apply only_registration_register_backward; [|done|done].
      right. by right.
    + case_bool_decide.
      * destruct rule as [r|]; [|apply preserves_raise].
        apply preserves_assoc. apply preserves_bind.
        { apply only_registration_register_backward; [right; by left | done]. }
        intros _. by apply IH.
      * apply preserves_bind; [by intros [o w] Hs|]. intros _. by apply IH.
Qed.

End Installed.

Section InstalledHooks.
Context {TL : TensorLib} {RT : Runtime}.

(** X5. Whatever hook registration adds to the store is a hook on one of
    the layers of the engine, and is a [forward_hook] of a rule, a
    pass-through [backward_hook_activation], or a relevance-recording
    backward hook; the last kind is installed only when all layers are
    asked for, so that without [return_for_all_layers] no layer gets a
    hook that records its relevance.  This holds also when the
    registration raises. *)
Theorem registration_installs_only_rule_hooks (s : state) :
  let r := _register_forward_hooks s in
  ∀ l e, e ∈ hooks_of r.2.2 l →
    e ∈ hooks_of s.2 l
    ∨ (registration_hook (return_for_all_layers s.1) e ∧ l ∈ ident <$> layers s.1).
Proof.
  cbn zeta.
  cut (only_registration_hooks s (return_for_all_layers s.1) (layers s.1)
         (_register_forward_hooks s).2); [by intros [_ H]|].
  unfold _register_forward_hooks, self_. rewrite bind_unfold. cbn -[mbind M_bind].
  apply only_registration_loop; [done|]. split; [done|]. intros l e He. by left.
Qed.

(** X6. When [_change_weights] returns, every hook it leaves in the store
    beyond those that were there is a pre-forward hook caching the inputs
    of a layer: the weight hooks of its extra forward pass are removed
    again. *)
Theorem change_weights_leaves_pre_hooks xs (s s' : state) :
  _change_weights xs s = (Ok tt, s') →
  ∀ l e, e ∈ hooks_of s'.2 l → e ∈ hooks_of s.2 l ∨ pre_hook e.
Proof.
  unfold _change_weights, self_. rewrite bind_unfold. cbn -[mbind M_bind].
  destruct (changes_weights s.1); [|intros [= <-]; by left].
  intros H.
  apply bind_Ok_inv in H as ([] & s1 & H1 & H).
  apply bind_Ok_inv in H as (out & s2 & H2 & H).
  apply bind_Ok_inv in H as ([] & s3 & H3 & H).
  (* the weight hooks are tracked by their handles *)
  assert (∀ l e, e ∈ hooks_of s1.2 l →
            e ∈ hooks_of s.2 l ∨ ModuleHandle l (he_id e) ∈ forward_handles s1.1) as T1.
  { revert H1. unfold _register_weight_hooks, self_. rewrite bind_unfold.
    cbn -[mbind M_bind for_each]. intros H1.
    eapply (preserves_eq (λ t : state, ∀ l e, e ∈ hooks_of t.2 l →
              e ∈ hooks_of s.2 l ∨ ModuleHandle l (he_id e) ∈ forward_handles t.1));
      [|by left|exact H1].
    apply preserves_for_each. intros layer _.
    preserves_split ltac:(first
      [ by intros [o w] Hs
      | intros [o w] Hs l e; unfold mbind, M_bind, bind; cbn -[hooks_of ident];
        pose proof (hooks_of_register layer ForwardHook
                      (bound forward_hook_weights a) (o, w) l) as Hreg;
        cbn -[hooks_of ident] in Hreg; rewrite Hreg; clear Hreg;
        case_decide as Hl;
        [ rewrite elem_of_app, list_elem_of_singleton; intros [Hold | ->];
          [ destruct (Hs l e Hold) as [?|?]; [by left | right; set_solver]
          | right; subst l; cbn -[ident]; set_solver ]
        | intros Hold; destruct (Hs l e Hold) as [?|?]; [by left | right; set_solver] ] ]). }
  assert (s2.1 = s1.1 ∧ ∀ l, hooks_of s2.2 l = hooks_of s1.2 l) as [E2 T2].
  { rewrite run_forward_eq in H2. cbn in H2. by injection H2 as _ <-. }
  assert (∀ l e, e ∈ hooks_of s3.2 l → e ∈ hooks_of s.2 l) as T3.
  { destruct (_remove_forward_hooks_spec s2) as (s3' & H3' & _ & He3).
    rewrite H3 in H3'. injection H3' as <-.
    intros l e He. apply He3 in He as [He Hnot]. rewrite T2 in He. rewrite E2 in Hnot.
    destruct (T1 l e He); [done|contradiction]. }
  revert H. unfold _register_pre_hooks, self_. rewrite bind_unfold.
  cbn -[mbind M_bind for_each]. intros H.
  eapply (preserves_eq (λ t : state, ∀ l e, e ∈ hooks_of t.2 l →
            e ∈ hooks_of s.2 l ∨ pre_hook e)); [|intros l e He; left; by apply T3|exact H].
  apply preserves_for_each. intros layer _.
  preserves_split ltac:(first
    [ by intros [o w] Hs
    | intros [o w] Hs l e; unfold mbind, M_bind, bind; cbn -[hooks_of ident];
      pose proof (hooks_of_register layer ForwardPreHook
                    (bound forward_pre_hook_activations a) (o, w) l) as Hreg;
      cbn -[hooks_of ident] in Hreg; rewrite Hreg; clear Hreg;
      case_decide as Hl;
      [ rewrite elem_of_app, list_elem_of_singleton; intros [Hold | ->];
        [ by apply Hs | right; by split ]
      | by apply Hs ] ]).
Qed.

End InstalledHooks.

Lemma registration_installs_only_rule_hooks_witness :
  registration_hook false
    {| he_id := 0; he_slot := ForwardHook;
       he_cb := bound forward_hook {| ri_id := 0; ri_class := Alpha1_Beta0_Rule |} |}.
Proof.
  assert ({| he_id := 0; he_slot := ForwardHook;
             he_cb := bound forward_hook {| ri_id := 0; ri_class := Alpha1_Beta0_Rule |} |}
          ∈ hooks_of (_register_forward_hooks toy_state).2.2 1) as He
    by (vm_compute; set_solver).
  destruct (registration_installs_only_rule_hooks toy_state 1 _ He)
    as [Hold | [Hk _]]; [|exact Hk].
  unfold hooks_of in Hold. cbn in Hold. rewrite lookup_empty in Hold.
  by apply not_elem_of_nil in Hold.
Defined.

Lemma change_weights_leaves_pre_hooks_witness :
  pre_hook
    {| he_id := 1; he_slot := ForwardPreHook;
       he_cb := bound forward_pre_hook_activations
                  {| ri_id := 1; ri_class := Alpha1_Beta0_Rule |} |}.
Proof.
  assert (_change_weights toy_inputs (set_changes_weights true toy_lrp, toy_world)
          = (Ok tt, (_change_weights toy_inputs
                       (set_changes_weights true toy_lrp, toy_world)).2)) as Hrun
    by (apply run_pair; vm_compute; reflexivity).
  assert ({| he_id := 1; he_slot := ForwardPreHook;
             he_cb := bound forward_pre_hook_activations
                        {| ri_id := 1; ri_class := Alpha1_Beta0_Rule |} |}
          ∈ hooks_of (_change_weights toy_inputs
                        (set_changes_weights true toy_lrp, toy_world)).2.2 1) as He
    by (vm_compute; set_solver).
  destruct (change_weights_leaves_pre_hooks _ _ _ Hrun 1 _ He) as [Hold | Hk]; [|exact Hk].
  unfold hooks_of in Hold. cbn in Hold. rewrite lookup_empty in Hold.
  by apply not_elem_of_nil in Hold.
Defined.

(** ** The removal of hooks *)

Section Removal.
Context {TL : TensorLib} {RT : Runtime}.

Lemma filter_all {A} (P : A → Prop) `{∀ x, Decision (P x)} (l : list A) :
  (∀ x, P x) → filter P l = l.
Proof.
  intros HP. induction l as [|x l IH]; [done|].
  rewrite filter_cons, decide_True by done. by rewrite IH.
Qed.

Lemma remove_handle_lookup h (w : world) l :
  hooks (remove_handle h w) !! l
  = filter (λ e, h ≠ ModuleHandle l (he_id e)) <$> hooks w !! l.
Proof.
  destruct h as [l0 id|id]; cbn.
  - destruct (decide (l = l0)) as [->|Hne].
    + rewrite lookup_alter_eq. destruct (hooks w !! l0) as [es|]; cbn; [|done].
      f_equal. apply list_filter_iff. intros e. split; [congruence|].
      intros He Hid. apply He. by rewrite Hid.
    + rewrite lookup_alter_ne by done. destruct (hooks w !! l) as [es|]; cbn; [|done].
      f_equal. symmetry. apply filter_all. congruence.
  - destruct (hooks w !! l) as [es|]; cbn; [|done].
    f_equal. symmetry. by apply filter_all.
Qed.

Lemma remove_all_lookup hs : ∀ (s : state) l,
  hooks (for_each handle_remove hs s).2.2 !! l
  = filter (λ e, ModuleHandle l (he_id e) ∉ hs) <$> hooks s.2 !! l.
Proof.
  induction hs as [|h hs IH]; intros s l.
  - cbn. destruct (hooks s.2 !! l) as [es|]; cbn; [|done].
    f_equal. symmetry. apply filter_all. intros e. apply not_elem_of_nil.
  - rewrite for_each_cons, bind_unfold. cbn -[for_each].
    rewrite IH. cbn. rewrite remove_handle_lookup.
    destruct (hooks s.2 !! l) as [es|]; cbn; [|done].
    f_equal. rewrite list_filter_filter. apply list_filter_iff.
    intros e. rewrite not_elem_of_cons. intuition congruence.
Qed.

(** X7. Removing the forward hooks twice is removing them once: the
    second removal finds the handles of [forward_handles], which the first
    one has not cleared, and changes no hook dictionary, no attribute of a
    module and nothing of the engine object. *)
Theorem remove_forward_hooks_twice (s : state) :
  let s1 := (_remove_forward_hooks s).2 in
  let s2 := (_remove_forward_hooks s1).2 in
  hooks s2.2 = hooks s1.2
  ∧ attrs s2.2 = attrs s1.2
  ∧ s2.1 = s1.1
  ∧ forward_handles s1.1 = forward_handles s.1
  ∧ (_remove_forward_hooks s).1 = Ok tt
  ∧ (_remove_forward_hooks s1).1 = Ok tt.
Proof.
  cbn zeta.
  destruct (_remove_forward_hooks_spec s) as (s1 & H1 & E1 & _).
  rewrite H1. cbn.
  destruct (_remove_forward_hooks_spec s1) as (s2 & H2 & E2 & _).
  rewrite H2. cbn.
  assert (∀ t : state, _remove_forward_hooks t
                       = for_each handle_remove (forward_handles t.1) t) as Hun
    by (intros t; unfold _remove_forward_hooks, self_; by rewrite bind_unfold).
  split; [|split; [|split; [done|split; [by rewrite E1|done]]]].
  - apply map_eq. intros l.
    pose proof (remove_all_lookup (forward_handles s1.1) s1 l) as L2.
    rewrite <- Hun, H2 in L2. cbn in L2. rewrite L2.
    pose proof (remove_all_lookup (forward_handles s.1) s l) as L1.
    rewrite <- Hun, H1 in L1. cbn in L1. rewrite L1, E1.
    destruct (hooks s.2 !! l) as [es|]; cbn; [|done].
    f_equal. rewrite list_filter_filter. apply list_filter_iff. tauto.
  - rewrite Hun in H2. destruct (remove_all_spec (forward_handles s1.1) s1)
      as (s2' & H2' & _ & Ha & _).
    rewrite H2 in H2'. by injection H2' as <-.
Qed.

Lemma rule_handles_loop rs : ∀ s : state,
  for_each (λ rule,
    match rule with
    | RuleObj r =>
        remove_if_present (_handle_input_hook r);;
        remove_if_present (_handle_output_hook r);;
        remove_if_present (_handle_layer_hook r)
    | RuleNone | NotARule => ret tt
    end) rs s
  = for_each handle_remove (rs ≫= rule_handles) s.
Proof.
  induction rs as [|rule rs IH]; intros s; [done|].
  rewrite for_each_cons, bind_unfold. cbn [mbind list_bind]. rewrite for_each_app.
  destruct rule as [|[cls [hi|] [ho|] [hl|]]|]; cbn -[for_each];
    rewrite ?bind_unfold; cbn -[for_each]; apply IH.
Qed.

(** X11. [_remove_backward_hooks] never raises and removes exactly the
    hooks whose handle is in [backward_handles] or is stored on one of the
    rule objects given at construction ([_handle_input_hook],
    [_handle_output_hook], [_handle_layer_hook]), on whatever module they
    are registered: nothing else is removed, nothing is added, the
    attributes of the modules and the engine object stay as they are. *)
Theorem remove_backward_hooks_spec (s : state) :
  ∃ s', _remove_backward_hooks s = (Ok tt, s')
    ∧ s'.1 = s.1
    ∧ attrs s'.2 = attrs s.2
    ∧ ∀ l e, e ∈ hooks_of s'.2 l ↔
        (e ∈ hooks_of s.2 l
         ∧ (ModuleHandle l (he_id e) ∉ backward_handles s.1)
         ∧ Forall (λ rule, ModuleHandle l (he_id e) ∉ rule_handles rule) (rules s.1)).
Proof.
  unfold _remove_backward_hooks, self_.
  rewrite bind_unfold. cbn -[for_each mbind M_bind hooks_of].
  rewrite bind_unfold.
  destruct (remove_all_spec (backward_handles s.1) s) as (s1 & -> & E1 & A1 & He1).
  rewrite bind_unfold. cbn -[for_each mbind M_bind hooks_of].
  rewrite rule_handles_loop.
  destruct (remove_all_spec (rules s1.1 ≫= rule_handles) s1) as (s2 & -> & E2 & A2 & He2).
  exists s2. split; [done|]. split; [congruence|]. split; [congruence|].
  intros l e. rewrite He2, He1, E1. rewrite list_elem_of_bind, Forall_forall.
  split.
  - intros [[He Hb] Hr]. split; [done|]. split; [done|].
    intros rule Hin Hh. apply Hr. by exists rule.
  - intros (He & Hb & Hr). split; [done|]. intros (rule & Hh & Hin). by apply (Hr rule).
Qed.

End Removal.

(** ** The first forward pass *)

Section FirstPass.
Context {TL : TensorLib} {RT : Runtime}.

(** X14. The output of the model is computed before any hook is
    installed: when that first forward pass raises, [attribute] raises the
    same exception, and the store holds the hook dictionaries of the fresh
    copy, no rule instance and no handle having been created. *)
Theorem first_forward_failure_installs_nothing
    inputs tgt rcd args all verb o (w : world) e st :
  rejected (leaves (model o)) = false →
  _run_forward (hooks (deepcopy (model o) w).2) (deepcopy (model o) w).1
    (_format_input inputs) tgt args
    (attrs (deepcopy (model o) w).2, rt (deepcopy (model o) w).2) = (Err e, st) →
  let r := attribute inputs tgt rcd args all verb (o, w) in
  r.1 = Err e
  ∧ hooks r.2.2 = hooks (deepcopy (model o) w).2
  ∧ next_handle r.2.2 = next_handle w
  ∧ next_rule r.2.2 = next_rule w
  ∧ forward_handles r.2.1 = [] ∧ backward_handles r.2.1 = [].
Proof.
  intros Hrej Hf. cbn zeta. rewrite attribute_setup, Hrej.
  unfold attribute_after_setup. rewrite bind_unfold, run_forward_eq.
  cbn -[mbind M_bind]. rewrite Hf. cbn.
  destruct (deepcopy_spec (model o) w) as ([] & _). by repeat split.
Qed.

End FirstPass.

Lemma first_forward_failure_installs_nothing_witness :
  (attribute toy_single toy_bad_target false None false false (toy_lrp, toy_world)).1
  = Err (RuntimeFailure "index out of range").
Proof.
  apply (first_forward_failure_installs_nothing toy_single toy_bad_target false None
           false false toy_lrp toy_world _
           (attrs (deepcopy toy_net toy_world).2, true)); reflexivity.
Defined.
